(** * linkclaw: environment bootstrap (tool/lnode.js) and self-update
      orchestration (openclaw-manager/src/App.tsx)

    A shallow embedding of the two pieces of the repository that take
    decisions: the Node.js bootstrap script and the React update handlers.
    Strings are sequences of bytes (the texts the code takes apart, version
    strings, file names and npm's output, are ASCII), JavaScript numbers that
    the code only uses as integers are mathematical integers ([NaN] kept
    apart), and every external command is an event of a trace. *)

From Stdlib Require Import ZArith NArith List String Ascii Bool Lia.
From Stdlib Require Import Decimal DecimalString DecimalN DecimalPos.
Import ListNotations.

#[local] Open Scope string_scope.
#[local] Open Scope Z_scope.

(* ================================================================== *)
(** * The JavaScript primitives the two files rely on *)
(* ================================================================== *)

Module JS.

(** A JavaScript number as far as the code uses it: an integer or [NaN].
    A JavaScript number is a double, which holds an integer exactly only
    up to 2^53 in absolute value: [Num z] is the number [z] itself within
    that range and stands for the double nearest to [z] beyond it. *)
Inductive number : Type :=
| NaN
| Num (z : Z).

(** [Number.isSafeInteger(z)]: the integers a double holds exactly, each
    with a double of its own. *)
Definition isSafeInteger (z : Z) : bool := Z.abs z <=? 2 ^ 53 - 1.

(** [a < b]: any comparison that involves [NaN] is [false].  The integers
    are compared as they are, which is what the doubles give as soon as one
    of the two is a safe integer (rounding to the nearest double is
    monotone and leaves a safe integer alone); the statements below compare
    with a safe integer only. *)
Definition lt (a b : number) : bool :=
  match a, b with
  | Num x, Num y => x <? y
  | _, _ => false
  end.

(** White space and line terminators of the ASCII range
    (TAB, LF, VT, FF, CR, SP), as [trim] and [parseInt] strip them.  The
    white space JavaScript knows outside ASCII (U+00A0, U+FEFF, ...) is not
    recognised: the statements that depend on it are about ASCII strings. *)
Definition is_space (c : ascii) : bool :=
  let n := N_of_ascii c in
  (((9 <=? n) && (n <=? 13)) || (n =? 32))%N.

(** The value of a decimal digit, [None] for any other character. *)
Definition digit (c : ascii) : option Z :=
  let n := N_of_ascii c in
  if ((48 <=? n) && (n <=? 57))%N then Some (Z.of_N n - 48) else None.

(** [s.substring(1)]: everything after the first character. *)
Definition substring1 (s : string) : string :=
  match s with
  | EmptyString => EmptyString
  | String _ r => r
  end.

(** [s.split('.')[0]]: the part of [s] before its first dot, all of [s]
    when it has none. *)
Fixpoint split_dot_0 (s : string) : string :=
  match s with
  | EmptyString => EmptyString
  | String c r => if Ascii.eqb c "." then EmptyString else String c (split_dot_0 r)
  end.

Fixpoint trimStart (s : string) : string :=
  match s with
  | EmptyString => EmptyString
  | String c r => if is_space c then trimStart r else s
  end.

(** Drops trailing white space: a character is kept when something that is
    kept follows it, or when it is no white space itself. *)
Fixpoint trimEnd (s : string) : string :=
  match s with
  | EmptyString => EmptyString
  | String c r =>
      match trimEnd r with
      | EmptyString => if is_space c then EmptyString else String c EmptyString
      | r' => String c r'
      end
  end.

(** [s.trim()] *)
Definition trim (s : string) : string := trimEnd (trimStart s).

(** The longest prefix of decimal digits, as a list of digit values. *)
Fixpoint digits_prefix (s : string) : list Z :=
  match s with
  | EmptyString => []
  | String c r =>
      match digit c with
      | Some d => d :: digits_prefix r
      | None => []
      end
  end.

Definition digits_value (ds : list Z) : Z :=
  fold_left (fun acc d => 10 * acc + d) ds 0.

(** [parseInt(s, 10)]: leading white space is skipped, one sign is read,
    then the longest run of decimal digits; no digit at all gives [NaN].
    What follows the digits is ignored.  The value is the integer the
    digits spell: [parseInt] returns the double nearest to it, the same
    number for up to fifteen digits and for every safe integer. *)
Definition parseInt10 (s : string) : number :=
  let s := trimStart s in
  let '(sign, s) :=
    match s with
    | String "-" r => (-1, r)
    | String "+" r => (1, r)
    | _ => (1, s)
    end in
  match digits_prefix s with
  | [] => NaN
  | ds => Num (sign * digits_value ds)
  end.

(** [s.startsWith(p)] *)
Fixpoint startsWith (s p : string) : bool :=
  match p, s with
  | EmptyString, _ => true
  | String a p', String b s' => Ascii.eqb a b && startsWith s' p'
  | String _ _, EmptyString => false
  end.

(** [s.includes(p)] *)
Fixpoint includes (s p : string) : bool :=
  startsWith s p ||
  match s with
  | EmptyString => false
  | String _ r => includes r p
  end.


(** [s.endsWith(p)] *)
Fixpoint endsWith (s p : string) : bool :=
  String.eqb s p ||
  match s with
  | EmptyString => false
  | String _ r => endsWith r p
  end.

(** [xs.find(pred)], [None] standing for [undefined]. *)
Definition find {A} (pred : A -> bool) (xs : list A) : option A :=
  List.find pred xs.

(** [a || b] on values that are a non-empty string or [undefined]. *)
Definition or_else {A} (a b : option A) : option A :=
  match a with
  | Some x => Some x
  | None => b
  end.

End JS.

(* ================================================================== *)
(** * tool/lnode.js: the environment bootstrap *)
(* ================================================================== *)

Module Lnode.

(** ** Configuration *)

Record config : Type := {
  minNodeVersion : Z;
  npmRegistry : string;
  nodeDistUrl : string;
}.

Definition CONFIG : config := {|
  minNodeVersion := 22;
  npmRegistry := "https://registry.npmmirror.com";
  nodeDistUrl := "https://npmmirror.com/mirrors/node";
|}.

(** ** The host and what a run leaves behind *)

Inductive level : Type := info | warn | error | success.

(** What a run does to the outside, in the order it happens.  [Log] is a
    call of [logger] (its time stamp left out), [Exec] a call of
    [execSync], [ReadDir] a call of [fs.readdirSync]; [Threw] follows the
    call that failed. *)
Inductive event : Type :=
| Log (l : level) (msg : string)
| ConsoleError (text : string)
| Exec (cmd : string)
| ReadDir (dir : string)
| Threw (message : string)
| Exit (code : Z).

(** The host of one run.  [platform], [version], [dirname] and [tool_files]
    are what [os.platform()], [process.version], [__dirname] (an absolute
    path, normalised by Node) and the listing of that directory give;
    [registry] is the registry URL npm has configured; [faults] tells, for
    each coming call of [execSync] or [readdirSync] in turn, whether it
    goes through ([None]) or throws, and then the message of the error it
    throws (no call throws once the list is used up); [events] is the
    trace so far, oldest first. *)
Record world : Type := {
  platform : string;
  version : string;
  dirname : string;
  tool_files : list string;
  registry : string;
  faults : list (option string);
  events : list event;
}.

Definition set_registry (r : string) (w : world) : world :=
  {| platform := platform w; version := version w; dirname := dirname w;
     tool_files := tool_files w; registry := r; faults := faults w;
     events := events w |}.

Definition set_faults (fs : list (option string)) (w : world) : world :=
  {| platform := platform w; version := version w; dirname := dirname w;
     tool_files := tool_files w; registry := registry w; faults := fs;
     events := events w |}.

Definition add_event (e : event) (w : world) : world :=
  {| platform := platform w; version := version w; dirname := dirname w;
     tool_files := tool_files w; registry := registry w; faults := faults w;
     events := events w ++ [e] |}.

(** ** Computations that may throw *)

Inductive result (A : Type) : Type :=
| Ok (a : A)
| Throw (message : string).
Arguments Ok {A} a.
Arguments Throw {A} message.

Definition M (A : Type) : Type := world -> result A * world.

Definition ret {A} (a : A) : M A := fun w => (Ok a, w).

Definition bind {A B} (m : M A) (k : A -> M B) : M B :=
  fun w =>
    match m w with
    | (Ok a, w') => k a w'
    | (Throw e, w') => (Throw e, w')
    end.

(** [try { body } catch (e) { handler }], [e.message] handed to the handler. *)
Definition try_catch {A} (body : M A) (handler : string -> M A) : M A :=
  fun w =>
    match body w with
    | (Ok a, w') => (Ok a, w')
    | (Throw e, w') => handler e w'
    end.

Notation "x <- m ;; k" := (bind m (fun x => k))
  (at level 61, m at next level, right associativity).
Notation "m ;; k" := (bind m (fun _ => k))
  (at level 61, right associativity).

Definition emit (e : event) : M unit := fun w => (Ok tt, add_event e w).

Definition log (l : level) (msg : string) : M unit := emit (Log l msg).

(** The next entry of the fault schedule decides whether a host call
    throws, and with which message. *)
Definition fault_point : M unit :=
  fun w =>
    match faults w with
    | Some message :: fs =>
        (Throw message, add_event (Threw message) (set_faults fs w))
    | None :: fs => (Ok tt, set_faults fs w)
    | [] => (Ok tt, w)
    end.

Definition npm_get_registry : string := "npm config get registry".
Definition npm_set_registry : string := "npm config set registry ".

Definition newline : string := String (ascii_of_nat 10) EmptyString.
Definition dquote : string := String (ascii_of_nat 34) EmptyString.

(** What a command that does not fail does on the host and prints.  The
    script only reads the output of [npm config get registry]; npm is taken
    to print the configured registry on a line of its own and to store the
    one it is given.  The installers and every other command change nothing
    the script looks at. *)
Definition run_command (cmd : string) : M string :=
  fun w =>
    if String.eqb cmd npm_get_registry then (Ok (registry w ++ newline), w)
    else if JS.startsWith cmd npm_set_registry
    then
      let url :=
        substring (String.length npm_set_registry) (String.length cmd) cmd in
      (Ok "", set_registry url w)
    else (Ok "", w).

(** [execSync(cmd)].  The message of the error a failing command throws
    is Node's to build ("Command failed: " and the command, followed by the
    child's standard error when that stream is piped, or the error of a
    spawn that could not happen): it comes with the fault. *)
Definition execSync (cmd : string) : M string :=
  emit (Exec cmd) ;;
  fault_point ;;
  run_command cmd.

(** [fs.readdirSync(dir)].  The message of the error (ENOENT, EACCES, ...)
    comes with the fault. *)
Definition readdirSync (dir : string) : M (list string) :=
  emit (ReadDir dir) ;;
  fault_point ;;
  fun w => (Ok (tool_files w), w).

Definition os_platform : M string := fun w => (Ok (platform w), w).
Definition process_version : M string := fun w => (Ok (version w), w).
Definition __dirname : M string := fun w => (Ok (dirname w), w).

(** The separator of the platform the script runs on. *)
Definition path_sep (platform : string) : string :=
  if String.eqb platform "win32" then "\" else "/".

(** [path.join(dir, name)] for [dir] = [__dirname], an absolute path that
    Node has normalised already, and [name] a plain file name of its
    listing.  [path.join] normalises the two joined by the separator; with
    such arguments that only matters for a root directory ("/", "C:\"),
    the one normalised path that ends in the separator: no second
    separator is put after it. *)
Definition path_join (platform dir name : string) : string :=
  if JS.endsWith dir (path_sep platform)
  then dir ++ name
  else dir ++ path_sep platform ++ name.

(** [String(n)] for an integer. *)
Definition show (z : Z) : string := NilZero.string_of_int (Z.to_int z).

(** ** The runtime version gate (lines 50-59 of the script) *)

(** [parseInt(currentVersion.substring(1).split('.')[0], 10)] *)
Definition majorVersion (currentVersion : string) : JS.number :=
  JS.parseInt10 (JS.split_dot_0 (JS.substring1 currentVersion)).

(** The condition of the [if]: [majorVersion < CONFIG.minNodeVersion]. *)
Definition version_too_low (currentVersion : string) (minimum : Z) : bool :=
  JS.lt (majorVersion currentVersion) (JS.Num minimum).

(** The [else] branch, "Node.js 版本满足要求": the gate is satisfied. *)
Definition satisfies (currentVersion : string) (minimum : Z) : bool :=
  negb (version_too_low currentVersion minimum).

(** ** configureNpmMirror *)

Definition configureNpmMirror : M unit :=
  log info "正在配置 npm 镜像源..." ;;
  try_catch
    (out <- execSync npm_get_registry ;;
     let currentRegistry := JS.trim out in
     if negb (String.eqb currentRegistry (npmRegistry CONFIG)) then
       log info ("设置 npm registry 为: " ++ npmRegistry CONFIG) ;;
       execSync (npm_set_registry ++ npmRegistry CONFIG) ;;
       log success "npm 镜像源配置成功"
     else
       log info "npm 镜像源已配置，无需修改")
    (fun e => log error ("配置 npm 镜像源失败: " ++ e)).

(** ** checkAndInstallBuildTools *)

Definition checkAndInstallBuildTools : M unit :=
  log info "正在检查 Windows 构建环境..." ;;
  try_catch
    (hasPython <-
       try_catch
         (execSync "python --version" ;;
          log info "Python 已安装" ;;
          ret true)
         (fun _ => log warn "Python 未找到" ;; ret false) ;;
     if negb hasPython then
       log info "尝试安装 Python 和构建工具..." ;;
       log info "建议手动运行: winget install Python.Python.3" ;;
       log info "安装 node-gyp..." ;;
       execSync "npm install -g node-gyp" ;;
       ret tt
     else
       log info "构建环境检查通过")
    (fun e => log error ("构建环境检查失败: " ++ e)).

(** ** findLocalInstaller *)

(** The choice among the files of the tool directory: on Windows the
    first "node-v*x64*.msi", else the first "node*.msi"; on macOS the first
    "node*.pkg"; nothing elsewhere. *)
Definition installer_among (platform : string) (files : list string)
    : option string :=
  if String.eqb platform "win32" then
    JS.or_else
      (JS.find (fun f => JS.startsWith f "node-v" && JS.endsWith f ".msi"
                         && JS.includes f "x64") files)
      (JS.find (fun f => JS.startsWith f "node" && JS.endsWith f ".msi") files)
  else if String.eqb platform "darwin" then
    JS.find (fun f => JS.startsWith f "node" && JS.endsWith f ".pkg") files
  else
    None.

Definition findLocalInstaller (platform : string) : M (option string) :=
  toolDir <- __dirname ;;
  files <- readdirSync toolDir ;;
  ret (installer_among platform files).

(** ** installLatestNode *)

Definition msiexec (installerPath : string) : string :=
  "msiexec /i " ++ dquote ++ installerPath ++ dquote ++ " /qn /norestart".
Definition sudo_installer (installerPath : string) : string :=
  "sudo installer -pkg " ++ dquote ++ installerPath ++ dquote ++ " -target /".
Definition winget : string :=
  "winget install OpenJS.NodeJS.LTS --accept-source-agreements".
Definition brew : string := "brew install node".

(** Step 1 of [installLatestNode], the local installer.  The value tells
    whether the function has returned ([return;] after a successful
    installation). *)
Definition local_attempt (platform : string) : M bool :=
  localInstaller <- findLocalInstaller platform ;;
  match localInstaller with
  | Some name =>
      dir <- __dirname ;;
      let installerPath := path_join platform dir name in
      log info ("发现本地安装包: " ++ name) ;;
      log info "正在执行本地静默安装，请稍候..." ;;
      try_catch
        (if String.eqb platform "win32" then
           execSync (msiexec installerPath) ;;
           log success "本地 Node.js 安装成功！" ;;
           ret true
         else if String.eqb platform "darwin" then
           log info "macOS 安装需要管理员权限，请输入密码..." ;;
           execSync (sudo_installer installerPath) ;;
           log success "本地 Node.js 安装成功！" ;;
           ret true
         else ret false)
        (fun e => log error ("本地安装失败: " ++ e ++ "，将尝试在线安装...") ;;
                  ret false)
  | None =>
      log info "未在 tool 目录找到 Node.js 安装包，准备在线安装..." ;;
      ret false
  end.

(** Step 2 of [installLatestNode], the online fallback. *)
Definition online_fallback (platform : string) : M unit :=
  if String.eqb platform "win32" then
    log info "Windows 系统建议使用 winget 或 fnm 安装" ;;
    try_catch
      (log info "尝试调用 winget 安装 Node.js LTS..." ;;
       execSync winget ;;
       log success "winget 命令执行完毕，请重启终端生效")
      (fun _ => log error "winget 安装失败，请手动下载安装包: https://nodejs.org/")
  else if String.eqb platform "darwin" then
    log info "macOS 系统建议使用 brew 安装" ;;
    try_catch
      (execSync brew ;;
       log success "brew 命令执行完毕")
      (fun _ => log error "brew 安装失败，请检查是否安装 Homebrew")
  else
    log info "Linux 系统建议使用 nvm 或包管理器安装".

Definition installLatestNode (platform : string) : M unit :=
  log info "正在检查 Node.js 安装环境..." ;;
  returned <- local_attempt platform ;;
  if returned : bool then ret tt else online_fallback platform.

(** ** main *)

(** The [catch] block of [main]: [error.stack] of an [Error] starts with
    "Error: " and its message; [process.exit(1)] is the last thing the
    script does. *)
Definition main_handler (e : string) : M unit :=
  log error ("执行过程中发生错误: " ++ e) ;;
  emit (ConsoleError ("Error: " ++ e)) ;;
  emit (Exit 1).

Definition main : M unit :=
  try_catch
    (log info "开始执行环境检查..." ;;
     platform <- os_platform ;;
     log info ("检测到操作系统: " ++ platform) ;;
     currentVersion <- process_version ;;
     log info ("当前 Node.js 版本: " ++ currentVersion) ;;
     (if version_too_low currentVersion (minNodeVersion CONFIG) then
        log warn ("Node.js 版本低于 v" ++ show (minNodeVersion CONFIG) ++ "，准备更新...") ;;
        installLatestNode platform
      else
        log success "Node.js 版本满足要求。") ;;
     configureNpmMirror ;;
     (if String.eqb platform "win32" then checkAndInstallBuildTools else ret tt) ;;
     log success "lnode.js 执行完成！环境已就绪。")
    main_handler.

(** ** Reading a trace *)

(** The commands a trace ran, in order. *)
Fixpoint commands (tr : list event) : list string :=
  match tr with
  | [] => []
  | Exec cmd :: tr' => cmd :: commands tr'
  | _ :: tr' => commands tr'
  end.

(** The commands that write the npm registry. *)
Definition writes (tr : list event) : list string :=
  filter (fun cmd => JS.startsWith cmd npm_set_registry) (commands tr).

(** A command of the install strategy chain: a local installer or a
    package manager. *)
Definition is_package_manager (cmd : string) : bool :=
  String.eqb cmd winget || String.eqb cmd brew.

Definition is_local_install (cmd : string) : bool :=
  JS.startsWith cmd "msiexec /i " || JS.startsWith cmd "sudo installer -pkg ".

Definition is_install (cmd : string) : bool :=
  is_local_install cmd || is_package_manager cmd.

(** A host on which nothing has happened yet. *)
Definition boot (platform version dirname : string) (tool_files : list string)
    (registry : string) (faults : list (option string)) : world :=
  {| platform := platform; version := version; dirname := dirname;
     tool_files := tool_files; registry := registry; faults := faults;
     events := [] |}.

(** The trace of a computation started on [w]. *)
Definition trace_of {A} (m : M A) (w : world) : list event := events (snd (m w)).

End Lnode.

(* ================================================================== *)
(** * openclaw-manager/src/App.tsx: the update handlers *)
(* ================================================================== *)

Module App.

(** ** The data the handlers exchange with the backend *)

Record EnvironmentStatus : Type := {
  node_installed : bool;
  node_version : option string;
  node_version_ok : bool;
  openclaw_installed : bool;
  openclaw_version : option string;
  config_dir_exists : bool;
  ready : bool;
  os : string;
}.

Record UpdateInfo : Type := {
  update_available : bool;
  current_version : option string;
  latest_version : option string;
  info_error : option string;
}.

Record UpdateResult : Type := {
  success : bool;
  message : string;
  error : option string;
}.

(** What a rejected [invoke] throws: the backend's error string; an
    [Error] object, given by its [name] and [message] properties as
    [Error.prototype.toString] reads them ("Error" and the empty string
    when they are undefined); or any other value, given by the text
    [String] makes of it. *)
Inductive thrown : Type :=
| ThrownString (text : string)
| ThrownError (name msg : string)
| ThrownValue (text : string).

(** [String(e)].  For an [Error] this is [Error.prototype.toString]: the
    name alone when the message is empty, the message alone when the name
    is empty, and otherwise the two with ": " between them. *)
Definition String_of (e : thrown) : string :=
  match e with
  | ThrownString text => text
  | ThrownError name msg =>
      if String.eqb name EmptyString then msg
      else if String.eqb msg EmptyString then name
      else name ++ ": " ++ msg
  | ThrownValue text => text
  end.

(** The backend commands that [invoke] names in these handlers. *)
Inductive command : Type :=
| check_environment
| check_openclaw_update
| backup_user_config
| update_openclaw.

(** What each command resolves to. *)
Definition reply (c : command) : Type :=
  match c with
  | check_environment => EnvironmentStatus
  | check_openclaw_update => UpdateInfo
  | backup_user_config => string
  | update_openclaw => UpdateResult
  end.

Inductive outcome (A : Type) : Type :=
| Resolved (a : A)
| Rejected (e : thrown).
Arguments Resolved {A} a.
Arguments Rejected {A} e.

Definition resolved {A} (r : outcome A) : bool :=
  match r with
  | Resolved _ => true
  | Rejected _ => false
  end.

(** ** The component's state (the [useState] cells the handlers touch) *)

Record AppState : Type := {
  isReady : option bool;
  envStatus : option EnvironmentStatus;
  updateInfo : option UpdateInfo;
  showUpdateBanner : bool;
  updating : bool;
  updateResult : option UpdateResult;
}.

Definition setIsReady (v : option bool) (s : AppState) : AppState :=
  {| isReady := v; envStatus := envStatus s; updateInfo := updateInfo s;
     showUpdateBanner := showUpdateBanner s; updating := updating s;
     updateResult := updateResult s |}.

Definition setEnvStatus (v : option EnvironmentStatus) (s : AppState) : AppState :=
  {| isReady := isReady s; envStatus := v; updateInfo := updateInfo s;
     showUpdateBanner := showUpdateBanner s; updating := updating s;
     updateResult := updateResult s |}.

Definition setUpdateInfo (v : option UpdateInfo) (s : AppState) : AppState :=
  {| isReady := isReady s; envStatus := envStatus s; updateInfo := v;
     showUpdateBanner := showUpdateBanner s; updating := updating s;
     updateResult := updateResult s |}.

Definition setShowUpdateBanner (v : bool) (s : AppState) : AppState :=
  {| isReady := isReady s; envStatus := envStatus s; updateInfo := updateInfo s;
     showUpdateBanner := v; updating := updating s;
     updateResult := updateResult s |}.

Definition setUpdating (v : bool) (s : AppState) : AppState :=
  {| isReady := isReady s; envStatus := envStatus s; updateInfo := updateInfo s;
     showUpdateBanner := showUpdateBanner s; updating := v;
     updateResult := updateResult s |}.

Definition setUpdateResult (v : option UpdateResult) (s : AppState) : AppState :=
  {| isReady := isReady s; envStatus := envStatus s; updateInfo := updateInfo s;
     showUpdateBanner := showUpdateBanner s; updating := updating s;
     updateResult := v |}.

(** The state [useState] starts from. *)
Definition initial : AppState :=
  {| isReady := None; envStatus := None; updateInfo := None;
     showUpdateBanner := false; updating := false; updateResult := None |}.

(** The condition the main view puts on the update dialog (line 238):
    [showUpdateBanner && updateInfo?.update_available]. *)
Definition banner_rendered (s : AppState) : bool :=
  showUpdateBanner s &&
  match updateInfo s with
  | Some i => update_available i
  | None => false
  end.

(** The early return of the component (lines 210-228): while [isReady] is
    [null] it renders the loading screen and nothing of the main view. *)
Definition loading (s : AppState) : bool :=
  match isReady s with
  | None => true
  | Some _ => false
  end.

(** Whether the update dialog is on screen: the main view is rendered and
    its condition on the dialog holds. *)
Definition dialog_rendered (s : AppState) : bool :=
  negb (loading s) && banner_rendered s.

(** ** Asynchronous handlers *)

Inductive loglevel : Type := linfo | lwarn | lerror.

(** An [async] function as the tree of what it does: state setters, log
    lines and timers run at once, an [await invoke(c)] suspends the
    handler until the backend settles the call. *)
Inductive task : Type :=
| Done
| Act (f : AppState -> AppState) (next : task)
| Note (l : loglevel) (msg : string) (next : task)
| SetTimeout (ms : Z) (callback : AppState -> AppState) (next : task)
| Await (c : command) (k : outcome (reply c) -> task).

(** [await t; k] for an async function [t] that does not reject. *)
Fixpoint seq (t k : task) : task :=
  match t with
  | Done => k
  | Act f n => Act f (seq n k)
  | Note l msg n => Note l msg (seq n k)
  | SetTimeout ms cb n => SetTimeout ms cb (seq n k)
  | Await c h => Await c (fun r => seq (h r) k)
  end.

(** [checkEnvironment]; [tauri] is what [isTauri()] gives. *)
Definition checkEnvironment (tauri : bool) : task :=
  if negb tauri then
    Note lwarn "不在 Tauri 环境中，跳过环境检查"
      (Act (setIsReady (Some true)) Done)
  else
    Note linfo "开始检查系统环境..."
      (Await check_environment (fun r =>
         match r with
         | Resolved status =>
             Note linfo "环境检查完成"
               (Act (setEnvStatus (Some status))
                  (Act (setIsReady (Some true)) Done))
         | Rejected _ =>
             Note lerror "环境检查失败"
               (Act (setIsReady (Some true)) Done)
         end)).

(** [checkUpdate] *)
Definition checkUpdate (tauri : bool) : task :=
  if negb tauri then Done
  else
    Note linfo "检查 OpenClaw 更新..."
      (Await check_openclaw_update (fun r =>
         match r with
         | Resolved info =>
             Note linfo "更新检查结果"
               (Act (setUpdateInfo (Some info))
                  (if update_available info
                   then Act (setShowUpdateBanner true) Done
                   else Done))
         | Rejected _ =>
             Note lerror "检查更新失败" Done
         end)).

(** The [finally] block of [handleUpdate]. *)
Definition finally : task := Act (setUpdating false) Done.

(** The [catch] block of [handleUpdate], followed by [finally]. *)
Definition catch (e : thrown) : task :=
  Act (setUpdateResult
         (Some {| success := false;
                  message := "更新过程中发生错误";
                  error := Some (String_of e) |}))
    finally.

(** The callback of the three-second timer. *)
Definition close_banner (s : AppState) : AppState :=
  setUpdateResult None (setShowUpdateBanner false s).

(** [handleUpdate] after [await invoke('update_openclaw')]. *)
Definition after_update (tauri : bool) (r : outcome UpdateResult) : task :=
  match r with
  | Resolved result =>
      Act (setUpdateResult (Some result))
        (if success result then
           seq (checkEnvironment tauri)
             (SetTimeout 3000 close_banner finally)
         else finally)
  | Rejected e => catch e
  end.

(** [handleUpdate] after [await invoke('backup_user_config')]. *)
Definition after_backup (tauri : bool) (r : outcome string) : task :=
  match r with
  | Resolved backupMsg =>
      Note linfo "配置备份成功"
        (Note linfo "开始执行更新..."
           (Await update_openclaw (after_update tauri)))
  | Rejected e => catch e
  end.

(** [handleUpdate] *)
Definition handleUpdate (tauri : bool) : task :=
  Act (setUpdating true)
    (Act (setUpdateResult None)
       (Note linfo "开始备份配置..."
          (Await backup_user_config (after_backup tauri)))).

(** ** Running the handlers *)

(** What the component does that can be seen from outside it. *)
Inductive obs : Type :=
| Invoke (c : command)
| Settled (c : command) (ok : bool)
| Logged (l : loglevel) (msg : string)
| TimerSet (ms : Z).

(** Which handler a suspended call belongs to. *)
Inductive handler : Type := HandleUpdate | CheckUpdate | CheckEnvironment.

Definition is_update (h : handler) : bool :=
  match h with
  | HandleUpdate => true
  | _ => false
  end.

(** A handler suspended at an [await invoke(awaits)]. *)
Record thread : Type := {
  origin : handler;
  awaits : command;
  kont : outcome (reply awaits) -> task;
}.

(** The component between two events: its state, the suspended handlers,
    the callbacks [handleUpdate] has handed to [setTimeout] and that have
    not run yet, and what it has done so far.  The two other timers of the
    component are not kept here: the one that delays [checkUpdate] after
    the mount shows as the event [StartCheckUpdate], and the interval that
    polls the service status touches none of the cells above. *)
Record machine : Type := {
  ui : AppState;
  pending : list thread;
  timers : list (AppState -> AppState);
  history : list obs;
}.

Definition start (s : AppState) : machine :=
  {| ui := s; pending := []; timers := []; history := [] |}.

Definition with_ui (f : AppState -> AppState) (m : machine) : machine :=
  {| ui := f (ui m); pending := pending m; timers := timers m;
     history := history m |}.

Definition record (o : obs) (m : machine) : machine :=
  {| ui := ui m; pending := pending m; timers := timers m;
     history := history m ++ [o] |}.

Definition add_timer (cb : AppState -> AppState) (m : machine) : machine :=
  {| ui := ui m; pending := pending m; timers := timers m ++ [cb];
     history := history m |}.

Definition suspend (th : thread) (m : machine) : machine :=
  {| ui := ui m; pending := pending m ++ [th]; timers := timers m;
     history := history m |}.

(** One attempt from its start to its end, the backend answering each
    call at once with [backend c]. *)
Fixpoint run (backend : forall c, outcome (reply c)) (t : task) (m : machine)
    : machine :=
  match t with
  | Done => m
  | Act f n => run backend n (with_ui f m)
  | Note l msg n => run backend n (record (Logged l msg) m)
  | SetTimeout ms cb n => run backend n (add_timer cb (record (TimerSet ms) m))
  | Await c k =>
      run backend (k (backend c))
        (record (Settled c (resolved (backend c))) (record (Invoke c) m))
  end.

(** A handler runs until it ends or suspends at its next [await]. *)
Fixpoint advance (o : handler) (t : task) (m : machine) : machine :=
  match t with
  | Done => m
  | Act f n => advance o n (with_ui f m)
  | Note l msg n => advance o n (record (Logged l msg) m)
  | SetTimeout ms cb n => advance o n (add_timer cb (record (TimerSet ms) m))
  | Await c k =>
      suspend {| origin := o; awaits := c; kont := k |} (record (Invoke c) m)
  end.

(** What the backend may answer to a call. *)
Inductive answer : Type :=
| AnswerEnv (r : outcome EnvironmentStatus)
| AnswerInfo (r : outcome UpdateInfo)
| AnswerBackup (r : outcome string)
| AnswerUpdate (r : outcome UpdateResult).

(** The answer as the outcome of call [c], when it is an answer to [c]. *)
Definition answer_for (c : command) (a : answer) : option (outcome (reply c)) :=
  match c, a with
  | check_environment, AnswerEnv r => Some r
  | check_openclaw_update, AnswerInfo r => Some r
  | backup_user_config, AnswerBackup r => Some r
  | update_openclaw, AnswerUpdate r => Some r
  | _, _ => None
  end.

(** The events the component reacts to: a click on "立即更新", a click on
    "暂不更新", a call of [checkUpdate] or of [checkEnvironment], the
    backend settling the [i]-th suspended call, the [i]-th of the timers
    of [handleUpdate] firing. *)
Inductive input : Type :=
| ClickUpdate
| ClickLater
| StartCheckUpdate
| StartCheckEnvironment
| Settle (i : nat) (a : answer)
| Fire (i : nat).

(** Takes the [i]-th element out of a list. *)
Fixpoint take_nth {A} (i : nat) (l : list A) : option (A * list A) :=
  match l, i with
  | [], _ => None
  | x :: r, O => Some (x, r)
  | x :: r, S j =>
      match take_nth j r with
      | Some (y, r') => Some (y, x :: r')
      | None => None
      end
  end.

(** Both buttons live in the dialog and carry [disabled={updating}]: a
    click reaches its handler only while the dialog is on screen and no
    attempt is under way. *)
Definition buttons_enabled (s : AppState) : bool :=
  dialog_rendered s && negb (updating s).

Definition step (tauri : bool) (m : machine) (i : input) : machine :=
  match i with
  | ClickUpdate =>
      if buttons_enabled (ui m)
      then advance HandleUpdate (handleUpdate tauri) m
      else m
  | ClickLater =>
      if buttons_enabled (ui m)
      then with_ui (setShowUpdateBanner false) m
      else m
  | StartCheckUpdate => advance CheckUpdate (checkUpdate tauri) m
  | StartCheckEnvironment => advance CheckEnvironment (checkEnvironment tauri) m
  | Settle n a =>
      match take_nth n (pending m) with
      | Some (th, rest) =>
          match answer_for (awaits th) a with
          | Some r =>
              advance (origin th) (kont th r)
                (record (Settled (awaits th) (resolved r))
                   {| ui := ui m; pending := rest; timers := timers m;
                      history := history m |})
          | None => m
          end
      | None => m
      end
  | Fire n =>
      match take_nth n (timers m) with
      | Some (cb, rest) =>
          {| ui := cb (ui m); pending := pending m; timers := rest;
             history := history m |}
      | None => m
      end
  end.

(** The component after a sequence of events. *)
Definition steps (tauri : bool) (m : machine) (inputs : list input) : machine :=
  fold_left (step tauri) inputs m.

(** The suspended calls that belong to an update attempt. *)
Definition attempts_in_flight (m : machine) : nat :=
  List.length (filter (fun th => is_update (origin th)) (pending m)).

(** How often a history invoked [c]. *)
Fixpoint invocations (c : command) (h : list obs) : nat :=
  match h with
  | [] => 0%nat
  | Invoke c' :: r =>
      match c, c' with
      | check_environment, check_environment
      | check_openclaw_update, check_openclaw_update
      | backup_user_config, backup_user_config
      | update_openclaw, update_openclaw => S (invocations c r)
      | _, _ => invocations c r
      end
  | _ :: r => invocations c r
  end.

End App.

(* ================================================================== *)
(** * Semantic versions, as the specification words the gate *)
(* ================================================================== *)

Module Semver.

(** [s.split('.')] *)
Fixpoint split_dots (s : string) : list string :=
  match s with
  | EmptyString => [EmptyString]
  | String c r =>
      if Ascii.eqb c "." then EmptyString :: split_dots r
      else
        match split_dots r with
        | h :: t => String c h :: t
        | [] => [String c EmptyString]
        end
  end.

Fixpoint all_digits (s : string) : bool :=
  match s with
  | EmptyString => true
  | String c r =>
      match JS.digit c with
      | Some _ => all_digits r
      | None => false
      end
  end.

(** One component of a version: a non-empty run of decimal digits. *)
Definition component (s : string) : option Z :=
  match s with
  | EmptyString => None
  | _ => if all_digits s then Some (JS.digits_value (JS.digits_prefix s)) else None
  end.

(** The (major, minor, patch) tuple of a version string, written with or
    without a leading "v"; [None] for anything that is not three numbers
    separated by dots. *)
Definition version_tuple (V : string) : option (Z * Z * Z) :=
  let V := match V with String "v" r => r | _ => V end in
  match split_dots V with
  | [a; b; c] =>
      match component a, component b, component c with
      | Some x, Some y, Some z => Some (x, y, z)
      | _, _, _ => None
      end
  | _ => None
  end.

(** Lexicographic [>=] on tuples, each component compared as a number. *)
Definition lex_ge (x y : Z * Z * Z) : bool :=
  let '(a, b, c) := x in
  let '(a', b', c') := y in
  (a' <? a) || ((a =? a') && ((b' <? b) || ((b =? b') && (c' <=? c)))).

(** The decimal numeral of a natural number. *)
Definition dec (n : N) : string := NilEmpty.string_of_uint (N.to_uint n).

(** The version string [process.version] has: "v", then the three numbers. *)
Definition print (a b c : N) : string :=
  "v" ++ dec a ++ "." ++ dec b ++ "." ++ dec c.

(** The tuple of a minimum that names a major version only, as
    [CONFIG.minNodeVersion] does. *)
Definition major_only (m : Z) : Z * Z * Z := (m, 0, 0).

End Semver.

(* ================================================================== *)
(** * The vocabulary of the statements *)
(* ================================================================== *)

(** The digits of a numeral, most significant first. *)
Fixpoint uint_digits (d : uint) : list Z :=
  match d with
  | Nil => []
  | D0 r => 0 :: uint_digits r
  | D1 r => 1 :: uint_digits r
  | D2 r => 2 :: uint_digits r
  | D3 r => 3 :: uint_digits r
  | D4 r => 4 :: uint_digits r
  | D5 r => 5 :: uint_digits r
  | D6 r => 6 :: uint_digits r
  | D7 r => 7 :: uint_digits r
  | D8 r => 8 :: uint_digits r
  | D9 r => 9 :: uint_digits r
  end.

Section BootstrapVocabulary.

Import Lnode.
#[local] Open Scope list_scope.

(** [emits P m]: whatever the host does, [m] only appends events, and each
    of them satisfies [P]. *)
Definition emits {A} (P : event -> Prop) (m : M A) : Prop :=
  forall w, exists tr, events (snd (m w)) = events w ++ tr /\ Forall P tr.


(** The three ways the chain ends in advice to install by hand. *)
Definition is_manual_advice (msg : string) : bool :=
  String.eqb msg "winget 安装失败，请手动下载安装包: https://nodejs.org/"
  || String.eqb msg "brew 安装失败，请检查是否安装 Homebrew"
  || String.eqb msg "Linux 系统建议使用 nvm 或包管理器安装".

(** The lines [installLatestNode] logs, the manual advice among them; two
    of them end in a text that varies (the file found, the error caught). *)
Definition chain_line (msg : string) : bool :=
  String.eqb msg "正在检查 Node.js 安装环境..."
  || JS.startsWith msg "发现本地安装包: "
  || String.eqb msg "正在执行本地静默安装，请稍候..."
  || String.eqb msg "本地 Node.js 安装成功！"
  || String.eqb msg "macOS 安装需要管理员权限，请输入密码..."
  || JS.startsWith msg "本地安装失败: "
  || String.eqb msg "未在 tool 目录找到 Node.js 安装包，准备在线安装..."
  || String.eqb msg "Windows 系统建议使用 winget 或 fnm 安装"
  || String.eqb msg "尝试调用 winget 安装 Node.js LTS..."
  || String.eqb msg "winget 命令执行完毕，请重启终端生效"
  || String.eqb msg "macOS 系统建议使用 brew 安装"
  || String.eqb msg "brew 命令执行完毕"
  || is_manual_advice msg.

(** An event outside the install strategy chain: no listing of the tool
    directory, no installer or package manager command, and no line that
    [installLatestNode] logs, its manual advice included. *)
Definition outside_chain (e : Lnode.event) : Prop :=
  match e with
  | Lnode.Exec cmd => Lnode.is_install cmd = false
  | Lnode.ReadDir _ => False
  | Lnode.Log _ msg => chain_line msg = false
  | _ => True
  end.

(** The three lines [main] logs before it reaches the gate. *)
Definition preamble (w : world) : list event :=
  [ Log info "开始执行环境检查...";
    Log info ("检测到操作系统: " ++ platform w)%string;
    Log info ("当前 Node.js 版本: " ++ version w)%string ].


Definition gate_failed : list event :=
  [ Log warn ("Node.js 版本低于 v" ++ show (minNodeVersion CONFIG)
              ++ "，准备更新...")%string ].

(** The first event of [configureNpmMirror] and of [installLatestNode]. *)
Definition mirror_starts : event := Log info "正在配置 npm 镜像源...".
Definition chain_starts : event := Log info "正在检查 Node.js 安装环境...".

(** The events [m] adds to the trace of [w]. *)
Definition produced {A} (m : M A) (w : world) : list event :=
  skipn (List.length (events w)) (events (snd (m w))).

(** An event in which the chain tries a candidate: a local installer or a
    package manager is run, or the manual advice is given. *)
Definition candidate (e : event) : bool :=
  match e with
  | Exec cmd => is_install cmd
  | Log _ msg => is_manual_advice msg
  | _ => false
  end.

(** The call just made has failed when [Threw] comes next. *)
Definition failed_next (post : list event) : bool :=
  match post with
  | Threw _ :: _ => true
  | _ => false
  end.

(** After an installer or package manager that did not fail, the trace
    holds no further candidate. *)
Fixpoint stops_at_success (tr : list event) : bool :=
  match tr with
  | [] => true
  | e :: post =>
      match e with
      | Exec cmd =>
          if is_install cmd && negb (failed_next post)
          then forallb (fun e' => negb (candidate e')) post
          else true
      | _ => true
      end && stops_at_success post
  end.

(** The writes of a trace that went through: the command did not throw. *)
Fixpoint completed_writes (tr : list event) : nat :=
  match tr with
  | [] => 0
  | Exec cmd :: post =>
      (if JS.startsWith cmd npm_set_registry && negb (failed_next post)
       then 1 else 0) + completed_writes post
  | _ :: post => completed_writes post
  end%nat.

(** No call of the trace failed. *)
Definition no_failure (tr : list event) : bool :=
  forallb (fun e => match e with Threw _ => false | _ => true end) tr.

(** The host after one call of [configureNpmMirror]. *)
Definition configured (w : world) : world := snd (configureNpmMirror w).

(** A host running Node 22.3 on Linux with the mirror configured. *)
Definition host_ok : world :=
  boot "linux" "v22.3.0" "/opt/tool" [] "https://registry.npmmirror.com" [].

(** A Linux host with Node 18. *)
Definition host_old : world :=
  boot "linux" "v18.2.0" "/opt/tool" [] "https://registry.npmmirror.com" [].


(** A Windows host with Node 18, an installer beside the script and no
    failing command. *)
Definition host_msi : Lnode.world :=
  Lnode.boot "win32" "v18.2.0" "C:\tool" ["node-v22.1.0-x64.msi"]
    "https://registry.npmjs.org/" [].

(** A host with the default registry on which the first write fails. *)
Definition host_flaky : Lnode.world :=
  Lnode.boot "linux" "v22.3.0" "/opt/tool" [] "https://registry.npmjs.org/"
    [ None;
      Some "Command failed: npm config set registry https://registry.npmmirror.com" ].

(** A macOS host with Node 18 and an installer beside the script that
    fails when it is run. *)
Definition host_pkg_fails : Lnode.world :=
  Lnode.boot "darwin" "v18.2.0" "/opt/tool" ["node-v22.1.0.pkg"]
    "https://registry.npmmirror.com"
    [ None;
      Some ("Command failed: "
            ++ Lnode.sudo_installer "/opt/tool/node-v22.1.0.pkg")%string ].

(** A host without npm: the shell's complaint follows the message. *)
Definition host_without_npm : Lnode.world :=
  Lnode.boot "linux" "v22.3.0" "/opt/tool" [] "https://registry.npmjs.org/"
    [ Some ("Command failed: npm config get registry" ++ Lnode.newline
            ++ "/bin/sh: 1: npm: not found" ++ Lnode.newline)%string ].

(** A Windows host with Node 18 whose tool directory cannot be listed. *)
Definition host_unlisted : Lnode.world :=
  Lnode.boot "win32" "v18.2.0" "C:\tool" [] "https://registry.npmjs.org/"
    [ Some "ENOENT: no such file or directory, scandir 'C:\tool'" ].

(** A host with the default registry and no failing command. *)
Definition host_default : Lnode.world :=
  Lnode.boot "linux" "v22.3.0" "/opt/tool" [] "https://registry.npmjs.org/" [].

(** The three filters of [findLocalInstaller]. *)
Definition is_msi_x64 (f : string) : bool :=
  JS.startsWith f "node-v" && JS.endsWith f ".msi" && JS.includes f "x64".

Definition is_msi (f : string) : bool :=
  JS.startsWith f "node" && JS.endsWith f ".msi".

Definition is_pkg (f : string) : bool :=
  JS.startsWith f "node" && JS.endsWith f ".pkg".

(** Whether the next host call throws. *)
Definition next_call_fails (w : world) : bool :=
  match faults w with
  | Some _ :: _ => true
  | _ => false
  end.





(** The one failure [main] does not contain: the gate sends the run into
    [installLatestNode] and the listing of the tool directory throws. *)
Definition hard_failure (w : world) : bool :=
  version_too_low (version w) (minNodeVersion CONFIG) && next_call_fails w.

(** The last line of a run that went through. *)
Definition final_line : event := Log success "lnode.js 执行完成！环境已就绪。".

(** Neither of the two commands of [checkAndInstallBuildTools]. *)
Definition no_build_tools (e : event) : Prop :=
  match e with
  | Exec cmd => cmd <> "python --version" /\ cmd <> "npm install -g node-gyp"
  | _ => True
  end.

(** Not the end of the process. *)
Definition no_exit (e : event) : Prop :=
  match e with
  | Exit _ => False
  | _ => True
  end.

(** [main] from the gate on: the stage that installs Node when the gate
    fails, and the stage that looks at the build tools on Windows. *)
Definition gate_stage (w : world) : M unit :=
  if version_too_low (version w) (minNodeVersion CONFIG) then
    log warn ("Node.js 版本低于 v" ++ show (minNodeVersion CONFIG)
              ++ "，准备更新...")%string ;;
    installLatestNode (platform w)
  else
    log success "Node.js 版本满足要求。".

Definition tools_stage (w : world) : M unit :=
  if String.eqb (platform w) "win32" then checkAndInstallBuildTools else ret tt.

(** The host once [main] has logged its first three lines. *)
Definition after_preamble (w : world) : world :=
  add_event (Log info ("当前 Node.js 版本: " ++ version w)%string)
    (add_event (Log info ("检测到操作系统: " ++ platform w)%string)
       (add_event (Log info "开始执行环境检查...") w)).


(** The message of the error the next host call throws, if it throws;
    when the gate has failed that call is the listing of the tool
    directory. *)
Definition listing_error (w : world) : string :=
  match faults w with
  | Some message :: _ => message
  | _ => EmptyString
  end.

End BootstrapVocabulary.

Section UpdateVocabulary.

Import App.
#[local] Open Scope list_scope.

(** Every [Invoke update_openclaw] of a history comes after a
    [Settled backup_user_config true]; [seen] tells whether one has been
    met already. *)
Fixpoint backup_first (seen : bool) (h : list obs) : bool :=
  match h with
  | [] => true
  | Invoke update_openclaw :: r => seen && backup_first seen r
  | Settled backup_user_config true :: r => backup_first true r
  | _ :: r => backup_first seen r
  end.

(** The backend of a test: every call resolves, the update succeeds. *)
Definition backend_ok (c : command) : outcome (reply c) :=
  match c with
  | check_environment =>
      Resolved {| node_installed := true; node_version := Some "v22.3.0";
                  node_version_ok := true; openclaw_installed := true;
                  openclaw_version := Some "0.0.6"; config_dir_exists := true;
                  ready := true; os := "linux" |}
  | check_openclaw_update =>
      Resolved {| update_available := true; current_version := Some "0.0.5";
                  latest_version := Some "0.0.6"; info_error := None |}
  | backup_user_config => Resolved "~/.openclaw_backups/20260101"
  | update_openclaw =>
      Resolved {| success := true; message := "ok"; error := None |}
  end.

(** The backend of a test: the backup is refused, all else resolves. *)
Definition backend_no_backup (c : command) : outcome (reply c) :=
  match c with
  | backup_user_config => Rejected (ThrownString "permission denied")
  | c' => backend_ok c'
  end.

(** The backend of a test: every call throws an [Error]. *)
Definition backend_broken (c : command) : outcome (reply c) :=
  Rejected (ThrownError "TypeError" "invoke is not a function").

(** The backend of a test: the update check fails. *)
Definition backend_offline (c : command) : outcome (reply c) :=
  match c with
  | check_openclaw_update => Rejected (ThrownString "network error")
  | c' => backend_ok c'
  end.

(** A setter or callback that leaves [updating] alone. *)
Definition keeps (f : AppState -> AppState) : Prop :=
  forall s, updating (f s) = updating s.

(** A handler that never touches [updating]. *)
Inductive bystander : task -> Prop :=
| by_done : bystander Done
| by_act f n : keeps f -> bystander n -> bystander (Act f n)
| by_note l msg n : bystander n -> bystander (Note l msg n)
| by_timer ms cb n : keeps cb -> bystander n -> bystander (SetTimeout ms cb n)
| by_await c k : (forall r, bystander (k r)) -> bystander (Await c k).

(** The rest of an update attempt: it leaves [updating] alone until its
    last step, which resets it. *)
Inductive attempt : task -> Prop :=
| at_finally : attempt finally
| at_act f n : keeps f -> attempt n -> attempt (Act f n)
| at_note l msg n : attempt n -> attempt (Note l msg n)
| at_timer ms cb n : keeps cb -> attempt n -> attempt (SetTimeout ms cb n)
| at_await c k : (forall r, attempt (k r)) -> attempt (Await c k).

(** A suspended call is of the kind its handler says. *)
Definition thread_ok (th : thread) : Prop :=
  if is_update (origin th)
  then forall r, attempt (kont th r)
  else forall r, bystander (kont th r).

(** What holds of the component between any two events: the suspended
    calls and timers are of the known kinds, and an update attempt is
    suspended exactly when [updating] is set, and then only one. *)
Definition consistent (m : machine) : Prop :=
  Forall thread_ok (pending m)
  /\ Forall keeps (timers m)
  /\ attempts_in_flight m = (if updating (ui m) then 1 else 0)%nat.

(** The environment check is answered and the loading screen gone, the
    update check reports a new version, the user clicks "立即更新". *)
Definition clicked_once : list input :=
  [ StartCheckEnvironment;
    Settle 0 (AnswerEnv (backend_ok check_environment));
    StartCheckUpdate;
    Settle 0 (AnswerInfo (backend_ok check_openclaw_update));
    ClickUpdate ].

(** The result [handleUpdate] builds in its [catch] block. *)
Definition error_result (e : thrown) : UpdateResult :=
  {| success := false;
     message := "更新过程中发生错误";
     error := Some (String_of e) |}.

(** The attempt went through: the backup resolved and the update resolved
    with [success] set. *)
Definition attempt_succeeds (backend : forall c, outcome (reply c)) : bool :=
  resolved (backend backup_user_config)
  && match backend update_openclaw with
     | Resolved result => success result
     | Rejected _ => false
     end.

(** Whether a check of the update source was answered with an update. *)
Definition announces_update (r : outcome UpdateInfo) : bool :=
  match r with
  | Resolved info => update_available info
  | Rejected _ => false
  end.

(** [checkEnvironment] after [await invoke('check_environment')]. *)
Definition env_answer (r : outcome EnvironmentStatus) : task :=
  match r with
  | Resolved status =>
      Note linfo "环境检查完成"
        (Act (setEnvStatus (Some status))
           (Act (setIsReady (Some true)) Done))
  | Rejected _ =>
      Note lerror "环境检查失败"
        (Act (setIsReady (Some true)) Done)
  end.

(** [checkUpdate] after [await invoke('check_openclaw_update')]. *)
Definition info_answer (r : outcome UpdateInfo) : task :=
  match r with
  | Resolved info =>
      Note linfo "更新检查结果"
        (Act (setUpdateInfo (Some info))
           (if update_available info
            then Act (setShowUpdateBanner true) Done
            else Done))
  | Rejected _ =>
      Note lerror "检查更新失败" Done
  end.

(** The calls that can be suspended at the backend: the two checks, and
    the three calls of an update attempt. *)
Inductive known_thread (tauri : bool) : thread -> Prop :=
| known_env :
    known_thread tauri
      {| origin := CheckEnvironment; awaits := check_environment;
         kont := env_answer |}
| known_info :
    known_thread tauri
      {| origin := CheckUpdate; awaits := check_openclaw_update;
         kont := info_answer |}
| known_backup :
    known_thread tauri
      {| origin := HandleUpdate; awaits := backup_user_config;
         kont := after_backup tauri |}
| known_apply :
    known_thread tauri
      {| origin := HandleUpdate; awaits := update_openclaw;
         kont := after_update tauri |}
| known_refresh :
    known_thread tauri
      {| origin := HandleUpdate; awaits := check_environment;
         kont := fun r => seq (env_answer r)
                            (SetTimeout 3000 close_banner finally) |}.

(** The component holds nothing but such calls, and every callback
    [handleUpdate] has handed to [setTimeout] is the one that closes the
    dialog. *)
Definition well_formed (tauri : bool) (m : machine) : Prop :=
  Forall (known_thread tauri) (pending m)
  /\ Forall (fun cb => cb = close_banner) (timers m).

(** How often a history saw [backup_user_config] resolve. *)
Fixpoint backups_done (h : list obs) : nat :=
  match h with
  | [] => 0%nat
  | Settled backup_user_config true :: r => S (backups_done r)
  | _ :: r => backups_done r
  end.

(** How often the update button is clicked in a sequence of events. *)
Fixpoint update_clicks (inputs : list input) : nat :=
  match inputs with
  | [] => 0%nat
  | ClickUpdate :: r => S (update_clicks r)
  | _ :: r => update_clicks r
  end.


End UpdateVocabulary.

(* ================================================================== *)
(** * Decimal numerals and [parseInt] *)
(* ================================================================== *)

Section Numerals.

Lemma digits_prefix_numeral (d : uint) (rest : string) :
  JS.digits_prefix (NilEmpty.string_of_uint d ++ rest)
  = (uint_digits d ++ JS.digits_prefix rest)%list.
Proof.
  induction d; simpl; try reflexivity;
    change (JS.digit _) with (Some 0) || change (JS.digit _) with (Some 1)
    || change (JS.digit _) with (Some 2) || change (JS.digit _) with (Some 3)
    || change (JS.digit _) with (Some 4) || change (JS.digit _) with (Some 5)
    || change (JS.digit _) with (Some 6) || change (JS.digit _) with (Some 7)
    || change (JS.digit _) with (Some 8) || change (JS.digit _) with (Some 9);
    now rewrite IHd.
Qed.

Lemma digits_prefix_numeral_only (d : uint) :
  JS.digits_prefix (NilEmpty.string_of_uint d) = uint_digits d.
Proof.
  rewrite <- (app_nil_r (uint_digits d)).
  change (@nil Z) with (JS.digits_prefix "").
  rewrite <- digits_prefix_numeral.
  f_equal. induction (NilEmpty.string_of_uint d); simpl; congruence.
Qed.

Lemma fold_digits_acc (d : uint) (acc : positive) :
  fold_left (fun a x => 10 * a + x) (uint_digits d) (Z.pos acc)
  = Z.pos (Pos.of_uint_acc d acc).
Proof.
  revert acc; induction d; intro acc;
    cbn [uint_digits fold_left Pos.of_uint_acc]; try reflexivity;
    rewrite <- IHd; f_equal; lia.
Qed.

Lemma digits_value_numeral (d : uint) :
  JS.digits_value (uint_digits d) = Z.of_N (N.of_uint d).
Proof.
  unfold JS.digits_value.
  induction d; cbn [uint_digits fold_left N.of_uint Pos.of_uint Z.of_N];
    try reflexivity; try exact IHd;
    rewrite <- fold_digits_acc; f_equal.
Qed.

Lemma split_dot_0_numeral (d : uint) (rest : string) :
  JS.split_dot_0 (NilEmpty.string_of_uint d ++ String "." rest)
  = NilEmpty.string_of_uint d.
Proof. induction d; simpl; congruence. Qed.

Lemma to_uint_not_Nil (n : N) : N.to_uint n <> Nil.
Proof.
  destruct n as [|p]; simpl; [discriminate|].
  apply DecimalPos.Unsigned.to_uint_nonnil.
Qed.

Lemma parseInt10_digit_first (c : ascii) (r : string) (x : Z) :
  JS.digit c = Some x ->
  JS.parseInt10 (String c r)
  = JS.Num (JS.digits_value (JS.digits_prefix (String c r))).
Proof.
  intro Hc.
  assert (Hs : JS.is_space c = false).
  { destruct c as [[] [] [] [] [] [] [] []]; try discriminate Hc; reflexivity. }
  assert (Hsign : match c with
                  | "-"%char => (-1, r)
                  | "+"%char => (1, r)
                  | _ => (1, String c r)
                  end = (1, String c r)).
  { destruct c as [[] [] [] [] [] [] [] []]; try discriminate Hc; reflexivity. }
  unfold JS.parseInt10. cbn [JS.trimStart]. rewrite Hs, Hsign.
  cbn [JS.digits_prefix]. rewrite Hc.
  f_equal. apply Z.mul_1_l.
Qed.

Lemma parseInt10_numeral (d : uint) :
  d <> Nil ->
  JS.parseInt10 (NilEmpty.string_of_uint d) = JS.Num (Z.of_N (N.of_uint d)).
Proof.
  intro Hd.
  rewrite <- digits_value_numeral, <- digits_prefix_numeral_only.
  destruct d; try congruence; cbn [NilEmpty.string_of_uint];
    eapply parseInt10_digit_first; reflexivity.
Qed.

Lemma parseInt10_dec (n : N) :
  JS.parseInt10 (Semver.dec n) = JS.Num (Z.of_N n).
Proof.
  unfold Semver.dec.
  rewrite parseInt10_numeral by apply to_uint_not_Nil.
  now rewrite DecimalN.Unsigned.of_to.
Qed.

End Numerals.

Lemma majorVersion_print (a b c : N) :
  Lnode.majorVersion (Semver.print a b c) = JS.Num (Z.of_N a).
Proof.
  unfold Lnode.majorVersion, Semver.print. simpl JS.substring1.
  unfold Semver.dec at 1.
  change ("." ++ ?x) with (String "." x).
  rewrite split_dot_0_numeral.
  apply parseInt10_dec.
Qed.

(** The strict reading of a version string agrees with the printer. *)
Lemma split_dots_numeral_dot (d : uint) (rest : string) :
  Semver.split_dots (NilEmpty.string_of_uint d ++ "." ++ rest)
  = NilEmpty.string_of_uint d :: Semver.split_dots rest.
Proof. induction d; simpl in *; try rewrite IHd; reflexivity. Qed.

Lemma split_dots_numeral (d : uint) :
  Semver.split_dots (NilEmpty.string_of_uint d) = [NilEmpty.string_of_uint d].
Proof. induction d; simpl; try rewrite IHd; reflexivity. Qed.

Lemma all_digits_numeral (d : uint) :
  Semver.all_digits (NilEmpty.string_of_uint d) = true.
Proof. induction d; simpl; auto. Qed.

Lemma component_numeral (d : uint) :
  d <> Nil ->
  Semver.component (NilEmpty.string_of_uint d) = Some (Z.of_N (N.of_uint d)).
Proof.
  intro Hd. unfold Semver.component.
  rewrite all_digits_numeral, digits_prefix_numeral_only, digits_value_numeral.
  destruct d; try reflexivity; congruence.
Qed.

Lemma version_tuple_print (a b c : N) :
  Semver.version_tuple (Semver.print a b c)
  = Some (Z.of_N a, Z.of_N b, Z.of_N c).
Proof.
  unfold Semver.version_tuple, Semver.print, Semver.dec.
  change ("v" ++ ?x) with (String "v" x). cbv iota beta.
  rewrite !split_dots_numeral_dot, split_dots_numeral.
  rewrite !component_numeral by apply to_uint_not_Nil.
  now rewrite !DecimalN.Unsigned.of_to.
Qed.

(* ================================================================== *)
(** * The runtime version gate *)
(* ================================================================== *)

Lemma split_dots_not_nil (r : string) : Semver.split_dots r <> [].
Proof.
  destruct r as [|c r]; simpl; [discriminate|].
  destruct (Ascii.eqb c "."); [discriminate|].
  destruct (Semver.split_dots r); discriminate.
Qed.

(** The first piece of [split('.')] is what the gate reads. *)
Lemma split_dot_0_head (r a : string) (rest : list string) :
  Semver.split_dots r = a :: rest -> JS.split_dot_0 r = a.
Proof.
  revert a rest. induction r as [|c r IH]; intros a rest H; simpl in *.
  - now injection H as <- _.
  - destruct (Ascii.eqb c "."); [now injection H as <- _|].
    destruct (Semver.split_dots r) as [|h t] eqn:E.
    + now destruct (split_dots_not_nil r).
    + injection H as <- _. f_equal. now apply (IH h t).
Qed.

Lemma digit_nonneg (c : ascii) (d : Z) : JS.digit c = Some d -> 0 <= d.
Proof.
  unfold JS.digit.
  destruct ((48 <=? N_of_ascii c)%N && (N_of_ascii c <=? 57)%N) eqn:E;
    [|discriminate].
  intros [= <-]. apply andb_true_iff in E as [E _]. apply N.leb_le in E. lia.
Qed.

Lemma digits_prefix_nonneg (s : string) : Forall (fun d => 0 <= d) (JS.digits_prefix s).
Proof.
  induction s as [|c r IH]; simpl; [constructor|].
  destruct (JS.digit c) as [d|] eqn:E; constructor; [|exact IH].
  now apply (digit_nonneg c).
Qed.

Lemma fold_digits_nonneg (ds : list Z) (acc : Z) :
  Forall (fun d => 0 <= d) ds -> 0 <= acc ->
  0 <= fold_left (fun a x => 10 * a + x) ds acc.
Proof.
  intro H. revert acc.
  induction H as [|d ds Hd H IH]; intros acc Ha; cbn [fold_left]; [exact Ha|].
  apply IH. lia.
Qed.

(** A component of a version is read by [parseInt] as the same number. *)
Lemma component_parseInt10 (a : string) (x : Z) :
  Semver.component a = Some x -> JS.parseInt10 a = JS.Num x /\ 0 <= x.
Proof.
  destruct a as [|c r]; [discriminate|].
  unfold Semver.component.
  destruct (Semver.all_digits (String c r)) eqn:E; [|discriminate].
  intros [= <-]. split.
  - simpl in E. destruct (JS.digit c) as [d|] eqn:Hc; [|discriminate].
    rewrite (parseInt10_digit_first c r d Hc).
    cbn [JS.digits_prefix]. now rewrite Hc.
  - apply fold_digits_nonneg; [apply (digits_prefix_nonneg (String c r)) | lia].
Qed.

(** C1: for every version string of an installed runtime, "v" followed by
    the (major, minor, patch) tuple as [process.version] is, and every
    minimum, a major version [m] as [CONFIG.minNodeVersion] is one (the
    tuple (m,0,0), a safe integer), the gate is satisfied iff the tuple of
    the version is lexicographically at least (m,0,0), each component
    compared as a number. *)
Theorem C1_satisfies_iff_tuple_ge (r : string) (t : Z * Z * Z) (m : Z) :
  Semver.version_tuple (String "v" r) = Some t ->
  JS.isSafeInteger m = true ->
  (Lnode.satisfies (String "v" r) m = true <->
   Semver.lex_ge t (Semver.major_only m) = true).
Proof.
  intros Ht _. revert Ht.
  unfold Semver.version_tuple. cbv iota beta.
  destruct (Semver.split_dots r) as [|a [|b [|c [|? ?]]]] eqn:E; try discriminate.
  destruct (Semver.component a) as [x|] eqn:Ha; [|discriminate].
  destruct (Semver.component b) as [y|] eqn:Hb; [|discriminate].
  destruct (Semver.component c) as [z|] eqn:Hc; [|discriminate].
  intros [= <-].
  destruct (component_parseInt10 a x Ha) as [Hx _].
  destruct (component_parseInt10 b y Hb) as [_ Hy].
  destruct (component_parseInt10 c z Hc) as [_ Hz].
  unfold Lnode.satisfies, Lnode.version_too_low, Lnode.majorVersion.
  cbn [JS.substring1]. rewrite (split_dot_0_head r a _ E), Hx.
  unfold JS.lt, Semver.major_only, Semver.lex_ge.
  rewrite negb_true_iff, Z.ltb_ge.
  rewrite orb_true_iff, andb_true_iff, orb_true_iff, andb_true_iff,
    !Z.ltb_lt, !Z.eqb_eq, Z.leb_le.
  lia.
Qed.

Lemma C1_witness :
  Lnode.satisfies "v22.3.0" (Lnode.minNodeVersion Lnode.CONFIG) = true <->
  Semver.lex_ge (22, 3, 0)
    (Semver.major_only (Lnode.minNodeVersion Lnode.CONFIG)) = true.
Proof.
  apply (C1_satisfies_iff_tuple_ge "22.3.0" (22, 3, 0)
           (Lnode.minNodeVersion Lnode.CONFIG)); reflexivity.
Defined.

(** Every tuple of natural numbers is the tuple of the version string it
    prints to ([version_tuple_print]): for every version Node reports, the
    gate of the script, with the minimum of [CONFIG], is satisfied iff the
    tuple is at least (22,0,0). *)
Corollary satisfies_print (a b c : N) :
  Lnode.satisfies (Semver.print a b c) (Lnode.minNodeVersion Lnode.CONFIG) = true
  <-> Semver.lex_ge (Z.of_N a, Z.of_N b, Z.of_N c) (22, 0, 0) = true.
Proof.
  unfold Lnode.satisfies, Lnode.version_too_low.
  rewrite majorVersion_print. unfold JS.lt, Semver.lex_ge.
  cbn [Lnode.minNodeVersion Lnode.CONFIG].
  rewrite negb_true_iff, Z.ltb_ge.
  rewrite orb_true_iff, andb_true_iff, orb_true_iff, andb_true_iff,
    !Z.ltb_lt, !Z.eqb_eq, Z.leb_le.
  lia.
Qed.

(* ================================================================== *)
(** * What a computation adds to the trace *)
(* ================================================================== *)

Section Traces.

Import Lnode.
#[local] Open Scope list_scope.

Variable P : event -> Prop.

Lemma emits_ret {A} (a : A) : emits P (ret a).
Proof. intro w. exists []. now rewrite app_nil_r. Qed.

Lemma emits_bind {A B} (m : M A) (k : A -> M B) :
  emits P m -> (forall a, emits P (k a)) -> emits P (bind m k).
Proof.
  intros Hm Hk w. unfold bind.
  destruct (Hm w) as [tr1 [E1 F1]].
  destruct (m w) as [[a|e] w1]; simpl in E1.
  - destruct (Hk a w1) as [tr2 [E2 F2]].
    exists (tr1 ++ tr2). rewrite E2, E1, app_assoc.
    split; [reflexivity | now apply Forall_app].
  - exists tr1. now split.
Qed.

Lemma emits_try_catch {A} (body : M A) (handler : string -> M A) :
  emits P body -> (forall e, emits P (handler e)) ->
  emits P (try_catch body handler).
Proof.
  intros Hm Hk w. unfold try_catch.
  destruct (Hm w) as [tr1 [E1 F1]].
  destruct (body w) as [[a|e] w1]; simpl in E1.
  - exists tr1. now split.
  - destruct (Hk e w1) as [tr2 [E2 F2]].
    exists (tr1 ++ tr2). rewrite E2, E1, app_assoc.
    split; [reflexivity | now apply Forall_app].
Qed.

Lemma emits_emit (e : event) : P e -> emits P (emit e).
Proof. intros He w. exists [e]. split; [reflexivity | now constructor]. Qed.

Lemma emits_log (l : level) (msg : string) : P (Log l msg) -> emits P (log l msg).
Proof. apply emits_emit. Qed.

Lemma emits_fault_point :
  (forall message, P (Threw message)) -> emits P fault_point.
Proof.
  intros He w. unfold fault_point.
  destruct (faults w) as [|[message|] fs]; simpl.
  - exists []. now rewrite app_nil_r.
  - exists [Threw message]. split; [reflexivity | now constructor].
  - exists []. now rewrite app_nil_r.
Qed.

Lemma emits_run_command (cmd : string) : emits P (run_command cmd).
Proof.
  intro w. unfold run_command. exists [].
  destruct (String.eqb cmd npm_get_registry);
    [|destruct (JS.startsWith cmd npm_set_registry)];
    simpl; now rewrite app_nil_r.
Qed.

Lemma emits_execSync (cmd : string) :
  P (Exec cmd) -> (forall message, P (Threw message)) -> emits P (execSync cmd).
Proof.
  intros H1 H2. unfold execSync.
  apply emits_bind; [now apply emits_emit | intros _].
  apply emits_bind; [now apply emits_fault_point | intros _].
  apply emits_run_command.
Qed.

Lemma emits_readdirSync (dir : string) :
  P (ReadDir dir) -> (forall message, P (Threw message)) ->
  emits P (readdirSync dir).
Proof.
  intros H1 H2. unfold readdirSync.
  apply emits_bind; [now apply emits_emit | intros _].
  apply emits_bind; [now apply emits_fault_point | intros _].
  intro w. exists []. simpl. now rewrite app_nil_r.
Qed.

Lemma emits_os_platform : emits P os_platform.
Proof. intro w. exists []. simpl. now rewrite app_nil_r. Qed.

Lemma emits_process_version : emits P process_version.
Proof. intro w. exists []. simpl. now rewrite app_nil_r. Qed.

Lemma emits___dirname : emits P __dirname.
Proof. intro w. exists []. simpl. now rewrite app_nil_r. Qed.

End Traces.

(** Takes a computation apart along its binds, handlers and branches. *)
Ltac emits_step :=
  first
    [ apply emits_ret
    | apply emits_os_platform
    | apply emits_process_version
    | apply emits___dirname
    | apply emits_log
    | apply emits_emit
    | apply emits_execSync; [|intro]
    | apply emits_readdirSync; [|intro]
    | apply emits_bind; [|intro]
    | apply emits_try_catch; [|intro]
    | match goal with
      | |- emits _ (if ?b then _ else _) => destruct b
      | |- emits _ (match ?x with _ => _ end) => destruct x
      end ].

Lemma configureNpmMirror_outside_chain :
  emits outside_chain Lnode.configureNpmMirror.
Proof.
  unfold Lnode.configureNpmMirror.
  repeat emits_step; simpl; try exact I; try reflexivity; discriminate.
Qed.





(* ================================================================== *)
(** * The gate and the install strategy chain in [main] *)
(* ================================================================== *)

Lemma skipn_exact {A} (l r : list A) :
  skipn (List.length l) (l ++ r)%list = r.
Proof. induction l; simpl; auto. Qed.

Section Gate.

Import Lnode.
#[local] Open Scope list_scope.










(** [main] once it has logged the platform and the version. *)
Lemma main_at_gate (w : world) :
  main w =
  try_catch
    ((if version_too_low (version w) (minNodeVersion CONFIG) then
        log warn ("Node.js 版本低于 v" ++ show (minNodeVersion CONFIG)
                  ++ "，准备更新...")%string ;;
        installLatestNode (platform w)
      else
        log success "Node.js 版本满足要求。") ;;
     configureNpmMirror ;;
     (if String.eqb (platform w) "win32" then checkAndInstallBuildTools else ret tt) ;;
     log success "lnode.js 执行完成！环境已就绪。")
    main_handler
    (add_event (Log info ("当前 Node.js 版本: " ++ version w)%string)
       (add_event (Log info ("检测到操作系统: " ++ platform w)%string)
          (add_event (Log info "开始执行环境检查...") w))).
Proof. reflexivity. Qed.










End Gate.

(* ================================================================== *)
(** * The install strategy chain *)
(* ================================================================== *)

Section Chain.

Import Lnode.
#[local] Open Scope list_scope.

Lemma stops_at_success_sound (tr : list event) :
  stops_at_success tr = true ->
  forall pre cmd post,
    tr = pre ++ Exec cmd :: post ->
    is_install cmd = true -> failed_next post = false ->
    Forall (fun e => candidate e = false) post.
Proof.
  intros H pre. revert tr H.
  induction pre as [|x pre IH]; intros tr H cmd post -> Hc Hf.
  - simpl in H. rewrite Hc, Hf in H. simpl in H.
    apply andb_true_iff in H as [H _].
    apply Forall_forall. intros e He.
    rewrite forallb_forall in H. apply negb_true_iff. now apply H.
  - simpl in H. apply andb_true_iff in H as [_ H].
    now apply (IH _ H cmd post).
Qed.

End Chain.

(** Unfolds the host operations of [Lnode] on a world given by its fields. *)
Ltac run_host :=
  cbv beta iota zeta delta
    [Lnode.bind Lnode.try_catch Lnode.ret Lnode.log Lnode.emit Lnode.execSync
     Lnode.readdirSync Lnode.fault_point Lnode.run_command Lnode.__dirname
     Lnode.os_platform Lnode.process_version Lnode.add_event Lnode.set_faults
     Lnode.set_registry Lnode.events Lnode.faults Lnode.dirname
     Lnode.tool_files Lnode.registry Lnode.platform Lnode.version fst snd
     negb].

Lemma installLatestNode_stops (platform : string) (w : Lnode.world) :
  stops_at_success (produced (Lnode.installLatestNode platform) w) = true.
Proof.
  destruct w as [pl ver dir files reg fs evs].
  unfold produced, Lnode.installLatestNode, Lnode.local_attempt,
    Lnode.findLocalInstaller, Lnode.online_fallback.
  destruct (Lnode.installer_among platform files) as [name|] eqn:E;
    (destruct (String.eqb platform "win32") eqn:Hw;
     [|destruct (String.eqb platform "darwin") eqn:Hd]);
    destruct fs as [|[?|] [|[?|] [|[?|] fs]]];
    run_host; rewrite ?E; run_host; simpl;
    rewrite <- ?app_assoc, skipn_exact; reflexivity.
Qed.

(** C5: in the trace of [installLatestNode], once an installer or a package
    manager has run without failing, no further candidate is tried: no
    installer, no package manager, no manual advice.  In particular no
    package manager runs after a local installer that succeeded. *)
Theorem C5_chain_stops_at_first_success
    (platform : string) (w : Lnode.world)
    (pre : list Lnode.event) (cmd : string) (post : list Lnode.event) :
  produced (Lnode.installLatestNode platform) w
    = (pre ++ Lnode.Exec cmd :: post)%list ->
  Lnode.is_install cmd = true ->
  failed_next post = false ->
  Forall (fun e => candidate e = false) post.
Proof.
  intro H. eapply stops_at_success_sound; [|exact H].
  apply installLatestNode_stops.
Qed.

Lemma C5_witness :
  Forall (fun e => candidate e = false)
    [Lnode.Log Lnode.success "本地 Node.js 安装成功！"].
Proof.
  apply (C5_chain_stops_at_first_success "win32" host_msi
           (firstn 4 (produced (Lnode.installLatestNode "win32") host_msi))
           (Lnode.msiexec
              (Lnode.path_join "win32" "C:\tool" "node-v22.1.0-x64.msi")));
    reflexivity.
Defined.

(* ================================================================== *)
(** * The registry mirror configurer *)
(* ================================================================== *)

Section Mirror.

Import Lnode.
#[local] Open Scope list_scope.

Lemma get_is_get : String.eqb npm_get_registry npm_get_registry = true.
Proof. reflexivity. Qed.

Lemma set_is_not_get :
  String.eqb (npm_set_registry ++ npmRegistry CONFIG)%string npm_get_registry
  = false.
Proof. reflexivity. Qed.

Lemma set_is_set :
  JS.startsWith (npm_set_registry ++ npmRegistry CONFIG)%string npm_set_registry
  = true.
Proof. reflexivity. Qed.

Lemma written_registry :
  substring (String.length npm_set_registry)
    (String.length (npm_set_registry ++ npmRegistry CONFIG)%string)
    (npm_set_registry ++ npmRegistry CONFIG)%string
  = npmRegistry CONFIG.
Proof. reflexivity. Qed.

Lemma target_reads_back :
  String.eqb (JS.trim (npmRegistry CONFIG ++ newline)%string) (npmRegistry CONFIG)
  = true.
Proof. reflexivity. Qed.

End Mirror.

(** One call of [configureNpmMirror], by what npm prints and which
    commands fail. *)
Lemma configureNpmMirror_once (w : Lnode.world) :
  let tr := produced Lnode.configureNpmMirror w in
  Lnode.events (configured w) = (Lnode.events w ++ tr)%list
  /\ (String.eqb (JS.trim (Lnode.registry w ++ Lnode.newline))
        (Lnode.npmRegistry Lnode.CONFIG) = true ->
      Lnode.writes tr = [] /\ Lnode.registry (configured w) = Lnode.registry w)
  /\ (completed_writes tr <= 1)%nat
  /\ (completed_writes tr = 1%nat ->
      Lnode.registry (configured w) = Lnode.npmRegistry Lnode.CONFIG)
  /\ (no_failure tr = true ->
      String.eqb (JS.trim (Lnode.registry (configured w) ++ Lnode.newline))
        (Lnode.npmRegistry Lnode.CONFIG) = true).
Proof.
  destruct w as [pl ver dir files reg fs evs].
  unfold produced, configured, Lnode.configureNpmMirror.
  destruct (String.eqb (JS.trim (reg ++ Lnode.newline))
              (Lnode.npmRegistry Lnode.CONFIG)) eqn:E;
    destruct fs as [|[?|] [|[?|] fs]];
    run_host;
    rewrite ?get_is_get; run_host; rewrite ?E; run_host;
    rewrite ?set_is_not_get, ?set_is_set; run_host;
    rewrite ?E;
    cbv zeta; rewrite <- ?app_assoc, skipn_exact;
    (split; [reflexivity|]);
    (split; [intro H; try discriminate H; split; reflexivity|]);
    (split; [simpl; lia|]);
    (split; [intro H; try discriminate H; try reflexivity|]);
    try (intro H; try discriminate H; try reflexivity; try exact E).
Qed.

Lemma completed_writes_le_writes (tr : list Lnode.event) :
  (completed_writes tr <= List.length (Lnode.writes tr))%nat.
Proof.
  unfold Lnode.writes.
  induction tr as [|e tr IH]; simpl; [lia|].
  destruct e; simpl; try exact IH.
  destruct (JS.startsWith cmd Lnode.npm_set_registry); simpl;
    [destruct (negb (failed_next tr))|]; simpl; lia.
Qed.

(** C6, as the specification states it, fails on the code: when the write
    of the first call throws, the error is logged and the registry stays
    as it was, so the second call finds it different from the mirror and
    writes again.  Two write commands run, and the second call is no
    no-op. *)
Lemma C6_counterexample_failed_write :
  let tr1 := produced Lnode.configureNpmMirror host_flaky in
  let tr2 := produced Lnode.configureNpmMirror (configured host_flaky) in
  ~ ((List.length (Lnode.writes tr1) + List.length (Lnode.writes tr2) <= 1)%nat
     /\ Lnode.writes tr2 = []).
Proof. vm_compute. intros [_ H]. discriminate H. Qed.

(** C6, amended: when the configured registry already equals the mirror,
    [configureNpmMirror] runs no write and leaves the registry alone; two
    calls in a row complete at most one write; and when no command of the
    first call fails, the second call runs no write and leaves the
    registry as the first one left it. *)
Theorem C6_mirror_idempotent (w : Lnode.world) :
  let tr1 := produced Lnode.configureNpmMirror w in
  let tr2 := produced Lnode.configureNpmMirror (configured w) in
  (Lnode.registry w = Lnode.npmRegistry Lnode.CONFIG ->
   Lnode.writes tr1 = [] /\ Lnode.registry (configured w) = Lnode.registry w)
  /\ (completed_writes tr1 + completed_writes tr2 <= 1)%nat
  /\ (no_failure tr1 = true ->
      Lnode.writes tr2 = []
      /\ Lnode.registry (configured (configured w))
         = Lnode.registry (configured w)).
Proof.
  intros tr1 tr2.
  destruct (configureNpmMirror_once w) as [_ [Hsame [Hle [Hone Hclean]]]].
  destruct (configureNpmMirror_once (configured w)) as [_ [Hsame2 [Hle2 _]]].
  fold tr1 in Hle, Hone, Hclean, Hsame. fold tr2 in Hle2, Hsame2.
  split; [|split].
  - intro Hreg. apply Hsame. rewrite Hreg. apply target_reads_back.
  - destruct (Nat.eq_dec (completed_writes tr1) 1) as [H1|H1]; [|lia].
    specialize (Hone H1).
    destruct Hsame2 as [Hw _]; [rewrite Hone; apply target_reads_back|].
    pose proof (completed_writes_le_writes tr2) as Hc.
    rewrite Hw in Hc. simpl in Hc. lia.
  - intro Hok. apply Hsame2. now apply Hclean.
Qed.

Lemma C6_witness :
  (Lnode.writes (produced Lnode.configureNpmMirror host_ok) = []
   /\ Lnode.registry (configured host_ok) = Lnode.registry host_ok)
  /\ (Lnode.writes (produced Lnode.configureNpmMirror (configured host_default)) = []
      /\ Lnode.registry (configured (configured host_default))
         = Lnode.registry (configured host_default)).
Proof.
  split.
  - apply (proj1 (C6_mirror_idempotent host_ok)). reflexivity.
  - apply (proj2 (proj2 (C6_mirror_idempotent host_default))). reflexivity.
Defined.

(* ================================================================== *)
(** * One update attempt *)
(* ================================================================== *)

Section Attempt.

Import App.
#[local] Open Scope list_scope.

Lemma backup_first_sound (h : list obs) (seen : bool) :
  backup_first seen h = true ->
  forall pre post,
    h = pre ++ Invoke update_openclaw :: post ->
    seen = true \/ In (Settled backup_user_config true) pre.
Proof.
  intros H pre. revert h seen H.
  induction pre as [|x pre IH]; intros h seen H post ->.
  - simpl in H. apply andb_true_iff in H as [H _]. now left.
  - assert (Hx : x = Settled backup_user_config true
                 \/ backup_first seen (pre ++ Invoke update_openclaw :: post) = true).
    { simpl in H. destruct x as [[]|[] []| |]; auto;
        apply andb_true_iff in H as [_ H]; auto. }
    destruct Hx as [-> | Hx]; [right; now left|].
    destruct (IH _ _ Hx post eq_refl) as [Hs|Hin]; [now left | right; now right].
Qed.

Lemma handleUpdate_backup_first tauri backend s :
  backup_first false (history (run backend (handleUpdate tauri) (start s))) = true.
Proof.
  simpl. destruct (backend backup_user_config) as [msg|e]; simpl; [|reflexivity].
  destruct (backend update_openclaw) as [[[|] m er]|e]; simpl; try reflexivity.
  destruct tauri; simpl; [|reflexivity].
  destruct (backend check_environment); reflexivity.
Qed.

(** C2: in the history of one attempt, every call of [update_openclaw] is
    preceded by a call of [backup_user_config] that has resolved. *)
Theorem C2_backup_before_apply
    (tauri : bool) (backend : forall c, outcome (reply c)) (s : AppState)
    (pre post : list obs) :
  history (run backend (handleUpdate tauri) (start s))
    = pre ++ Invoke update_openclaw :: post ->
  In (Settled backup_user_config true) pre.
Proof.
  intro H.
  destruct (backup_first_sound _ _ (handleUpdate_backup_first tauri backend s)
              pre post H) as [Hs|Hin]; [discriminate | exact Hin].
Qed.

Lemma C2_witness :
  In (Settled backup_user_config true)
    (firstn 5 (history (run backend_ok (handleUpdate true) (start initial)))).
Proof.
  apply (C2_backup_before_apply true backend_ok initial _
           (skipn 6 (history (run backend_ok (handleUpdate true) (start initial))))).
  reflexivity.
Defined.

(** [String(e)], case by case: the string itself; for an [Error] its name
    when the message is empty, its message when the name is empty, and
    "name: message" otherwise. *)
Lemma String_of_text (e : thrown) :
  match e with
  | ThrownString text => String_of e = text
  | ThrownError name msg =>
      (name = EmptyString -> String_of e = msg)
      /\ (name <> EmptyString -> msg = EmptyString -> String_of e = name)
      /\ (name <> EmptyString -> msg <> EmptyString ->
          String_of e = (name ++ ": " ++ msg)%string)
  | ThrownValue text => String_of e = text
  end.
Proof.
  destruct e as [text|name msg|text]; try reflexivity.
  unfold String_of.
  destruct (String.eqb_spec name EmptyString) as [->|Hn];
    destruct (String.eqb_spec msg EmptyString) as [->|Hm];
    repeat split; intros; congruence.
Qed.

(** C4: when [backup_user_config] rejects with [e], the attempt ends with
    the result [{success: false, message: '更新过程中发生错误', error}]
    whose [error] is the text of what was thrown, and [update_openclaw] is
    not called.  The text is [String(e)]: the string the backend rejected
    with; for an [Error] its name and message with ": " between them, or
    the one of the two that is not empty. *)
Theorem C4_backup_failure_is_reported
    (tauri : bool) (backend : forall c, outcome (reply c)) (s : AppState)
    (e : thrown) :
  backend backup_user_config = Rejected e ->
  let m := run backend (handleUpdate tauri) (start s) in
  updateResult (ui m)
    = Some {| success := false;
              message := "更新过程中发生错误";
              error :=
                Some match e with
                     | ThrownString text => text
                     | ThrownError EmptyString msg => msg
                     | ThrownError name EmptyString => name
                     | ThrownError name msg => (name ++ ": " ++ msg)%string
                     | ThrownValue text => text
                     end |}
  /\ invocations update_openclaw (history m) = 0%nat.
Proof.
  intro H. simpl. rewrite H. simpl. split; [|reflexivity].
  destruct e as [text|[|c name] [|c' msg]|text]; reflexivity.
Qed.

Lemma C4_witness :
  (let m := run backend_no_backup (handleUpdate true) (start initial) in
   updateResult (ui m)
     = Some {| success := false;
               message := "更新过程中发生错误";
               error := Some "permission denied" |}
   /\ invocations update_openclaw (history m) = 0%nat)
  /\
  (let m := run backend_broken (handleUpdate true) (start initial) in
   updateResult (ui m)
     = Some {| success := false;
               message := "更新过程中发生错误";
               error := Some "TypeError: invoke is not a function" |}
   /\ invocations update_openclaw (history m) = 0%nat).
Proof.
  split.
  - apply (C4_backup_failure_is_reported true backend_no_backup initial
             (ThrownString "permission denied")).
    reflexivity.
  - apply (C4_backup_failure_is_reported true backend_broken initial
             (ThrownError "TypeError" "invoke is not a function")).
    reflexivity.
Defined.

(** C10: however the backend answers, the attempt ends with [updating]
    reset to [false]. *)
Theorem C10_updating_is_reset
    (tauri : bool) (backend : forall c, outcome (reply c)) (m : machine) :
  updating (ui (run backend (handleUpdate tauri) m)) = false.
Proof.
  simpl. destruct (backend backup_user_config) as [msg|e]; simpl; [|reflexivity].
  destruct (backend update_openclaw) as [[[|] msg' er]|e]; simpl; try reflexivity.
  destruct tauri; simpl; [|reflexivity].
  destruct (backend check_environment); reflexivity.
Qed.

(** C9: a failed update check changes nothing of the state; [checkUpdate]
    turns the banner flag on only for an answer whose [update_available]
    is true, and after an answer the dialog is rendered only if that
    answer's [update_available] is true. *)
Theorem C9_check_failure_changes_nothing
    (tauri : bool) (backend : forall c, outcome (reply c)) (m : machine) :
  let m' := run backend (checkUpdate tauri) m in
  (forall e, backend check_openclaw_update = Rejected e -> ui m' = ui m)
  /\ (showUpdateBanner (ui m) = false -> showUpdateBanner (ui m') = true ->
      exists info, backend check_openclaw_update = Resolved info
                   /\ update_available info = true)
  /\ (forall info, tauri = true ->
        backend check_openclaw_update = Resolved info ->
        banner_rendered (ui m') = true -> update_available info = true).
Proof.
  destruct tauri; simpl.
  - destruct (backend check_openclaw_update) as [info|e] eqn:E; simpl.
    + split; [intros e He; discriminate He|]. split.
      * intros H0 H1. exists info. split; [reflexivity|].
        destruct (update_available info); simpl in H1; congruence.
      * intros info' _ [= <-]. unfold banner_rendered.
        destruct (update_available info) eqn:U; simpl; rewrite ?U;
          [reflexivity | intro H; apply andb_true_iff in H as [_ H]; exact H].
    + split; [reflexivity|]. split; [congruence|]. intros info _ H. discriminate H.
  - split; [reflexivity|]. split; [congruence|]. intros info H. discriminate H.
Qed.

Lemma C9_witness :
  ui (run backend_offline (checkUpdate true) (start initial)) = ui (start initial)
  /\ (exists info, backend_ok check_openclaw_update = Resolved info
                   /\ update_available info = true)
  /\ update_available
       {| update_available := true; current_version := Some "0.0.5";
          latest_version := Some "0.0.6"; info_error := None |} = true.
Proof.
  split; [|split].
  - apply (proj1 (C9_check_failure_changes_nothing true backend_offline
                    (start initial)) (ThrownString "network error")).
    reflexivity.
  - apply (proj1 (proj2 (C9_check_failure_changes_nothing true backend_ok
                           (start initial)))); reflexivity.
  - apply (proj2 (proj2 (C9_check_failure_changes_nothing true backend_ok
                           (start initial))) _ eq_refl eq_refl).
    reflexivity.
Defined.

End Attempt.

(* ================================================================== *)
(** * The component as a machine: one attempt at a time *)
(* ================================================================== *)

Section OneAtATime.

Import App.
#[local] Open Scope list_scope.

Lemma attempt_seq (t k : task) : bystander t -> attempt k -> attempt (seq t k).
Proof.
  intros Ht Hk. induction Ht; simpl; try (constructor; auto); exact Hk.
Qed.

Lemma bystander_checkEnvironment tauri : bystander (checkEnvironment tauri).
Proof.
  unfold checkEnvironment. destruct tauri; simpl.
  - constructor. constructor. intros [status|e];
      repeat (constructor; try (intro; reflexivity)).
  - repeat (constructor; try (intro; reflexivity)).
Qed.

Lemma bystander_checkUpdate tauri : bystander (checkUpdate tauri).
Proof.
  unfold checkUpdate. destruct tauri; simpl; [|constructor].
  constructor. constructor. intros [info|e].
  - constructor. constructor; [intro; reflexivity|].
    destruct (update_available info);
      repeat (constructor; try (intro; reflexivity)).
  - repeat constructor.
Qed.

Lemma attempt_catch e : attempt (catch e).
Proof. unfold catch. constructor; [intro; reflexivity | constructor]. Qed.

Lemma attempt_after_update tauri r : attempt (after_update tauri r).
Proof.
  destruct r as [result|e]; simpl; [|apply attempt_catch].
  constructor; [intro; reflexivity|].
  destruct (success result); [|constructor].
  apply attempt_seq; [apply bystander_checkEnvironment|].
  constructor; [intro; reflexivity | constructor].
Qed.

Lemma attempt_after_backup tauri r : attempt (after_backup tauri r).
Proof.
  destruct r as [msg|e]; simpl; [|apply attempt_catch].
  do 3 constructor. apply attempt_after_update.
Qed.

Lemma in_flight_suspend th m :
  attempts_in_flight (suspend th m)
  = (attempts_in_flight m + (if is_update (origin th) then 1 else 0))%nat.
Proof.
  unfold attempts_in_flight, suspend; simpl.
  rewrite filter_app, length_app. simpl.
  destruct (is_update (origin th)); reflexivity.
Qed.

(** A bystander runs without disturbing the invariant's ingredients. *)
Lemma advance_bystander o t m :
  bystander t -> is_update o = false ->
  Forall thread_ok (pending m) -> Forall keeps (timers m) ->
  let m' := advance o t m in
  Forall thread_ok (pending m') /\ Forall keeps (timers m')
  /\ updating (ui m') = updating (ui m)
  /\ attempts_in_flight m' = attempts_in_flight m.
Proof.
  intros Ht Ho. revert m.
  induction Ht as [|f n Hf Hn IH|l msg n Hn IH|ms cb n Hcb Hn IH|c k Hk IH];
    intros m Hp Htm; simpl.
  - now repeat split.
  - destruct (IH (with_ui f m) Hp Htm) as [A [B [C D]]].
    split; [exact A|]. split; [exact B|]. split; [|exact D].
    simpl in C. now rewrite Hf in C.
  - exact (IH (record (Logged l msg) m) Hp Htm).
  - assert (Htm' : Forall keeps (timers m ++ [cb])).
    { apply Forall_app. split; [exact Htm|]. now constructor. }
    exact (IH (add_timer cb (record (TimerSet ms) m)) Hp Htm').
  - split; [|split; [exact Htm|split; [reflexivity|]]].
    + apply Forall_app. split; [exact Hp|].
      constructor; [|constructor].
      unfold thread_ok; simpl. rewrite Ho. exact Hk.
    + rewrite in_flight_suspend. simpl. rewrite Ho.
      unfold attempts_in_flight. simpl. lia.
Qed.

(** The rest of an attempt either suspends again, [updating] untouched,
    or ends and resets [updating]. *)
Lemma advance_attempt t m :
  attempt t ->
  Forall thread_ok (pending m) -> Forall keeps (timers m) ->
  let m' := advance HandleUpdate t m in
  Forall thread_ok (pending m') /\ Forall keeps (timers m')
  /\ ((updating (ui m') = updating (ui m)
       /\ attempts_in_flight m' = S (attempts_in_flight m))
      \/ (updating (ui m') = false
          /\ attempts_in_flight m' = attempts_in_flight m)).
Proof.
  intros Ht. revert m.
  induction Ht as [|f n Hf Hn IH|l msg n Hn IH|ms cb n Hcb Hn IH|c k Hk IH];
    intros m Hp Htm; simpl.
  - split; [exact Hp|]. split; [exact Htm|]. right. now split.
  - destruct (IH (with_ui f m) Hp Htm) as [A [B C]].
    split; [exact A|]. split; [exact B|].
    simpl in C. rewrite Hf in C. exact C.
  - exact (IH (record (Logged l msg) m) Hp Htm).
  - assert (Htm' : Forall keeps (timers m ++ [cb])).
    { apply Forall_app. split; [exact Htm|]. now constructor. }
    exact (IH (add_timer cb (record (TimerSet ms) m)) Hp Htm').
  - split; [|split; [exact Htm|left; split; [reflexivity|]]].
    + apply Forall_app. split; [exact Hp|].
      constructor; [|constructor].
      unfold thread_ok; simpl. exact Hk.
    + rewrite in_flight_suspend. simpl.
      unfold attempts_in_flight. simpl. lia.
Qed.

Lemma take_nth_split {A} (i : nat) (l : list A) x rest :
  take_nth i l = Some (x, rest) ->
  exists l1 l2, l = l1 ++ x :: l2 /\ rest = l1 ++ l2.
Proof.
  revert i x rest. induction l as [|y l IH]; intros [|i] x rest H; simpl in H;
    try discriminate.
  - injection H as -> ->. now exists [], rest.
  - destruct (take_nth i l) as [[z r]|] eqn:E; [|discriminate].
    injection H as -> <-.
    destruct (IH _ _ _ E) as [l1 [l2 [-> ->]]].
    now exists (y :: l1), l2.
Qed.

Lemma consistent_start s : updating s = false -> consistent (start s).
Proof.
  intro H. unfold consistent, attempts_in_flight; simpl. rewrite H.
  repeat split; constructor.
Qed.

Lemma consistent_step tauri m i : consistent m -> consistent (step tauri m i).
Proof.
  intros [Hp [Ht Hc]]. destruct i; cbn [step].
  - (* ClickUpdate *)
    unfold buttons_enabled.
    destruct (dialog_rendered (ui m) && negb (updating (ui m))) eqn:E;
      [|now repeat split].
    apply andb_true_iff in E as [_ E]. apply negb_true_iff in E.
    rewrite E in Hc.
    assert (Hat : attempt (Act (setUpdateResult None)
                    (Note linfo "开始备份配置..."
                       (Await backup_user_config (after_backup tauri))))).
    { constructor; [intro; reflexivity|]. do 2 constructor.
      apply attempt_after_backup. }
    pose proof (advance_attempt _ (with_ui (setUpdating true) m) Hat Hp Ht) as X.
    change (advance HandleUpdate (handleUpdate tauri) m)
      with (advance HandleUpdate
              (Act (setUpdateResult None)
                 (Note linfo "开始备份配置..."
                    (Await backup_user_config (after_backup tauri))))
              (with_ui (setUpdating true) m)).
    cbv zeta in X.
    remember (advance HandleUpdate _ (with_ui (setUpdating true) m)) as m1.
    change (attempts_in_flight (with_ui (setUpdating true) m))
      with (attempts_in_flight m) in X.
    change (updating (ui (with_ui (setUpdating true) m))) with true in X.
    destruct X as [A [B [[C1 C2]|[C1 C2]]]];
      (split; [exact A | split; [exact B|]]); rewrite C1, C2, Hc; reflexivity.
  - (* ClickLater *)
    destruct (buttons_enabled (ui m)); now repeat split.
  - (* StartCheckUpdate *)
    destruct (advance_bystander CheckUpdate _ m (bystander_checkUpdate tauri)
                eq_refl Hp Ht) as [A [B [C D]]].
    split; [exact A | split; [exact B|]]. now rewrite C, D.
  - (* StartCheckEnvironment *)
    destruct (advance_bystander CheckEnvironment _ m
                (bystander_checkEnvironment tauri) eq_refl Hp Ht)
      as [A [B [C D]]].
    split; [exact A | split; [exact B|]]. now rewrite C, D.
  - (* Settle *)
    destruct (take_nth i (pending m)) as [[th rest]|] eqn:E; [|now repeat split].
    destruct (answer_for (awaits th) a) as [r|]; [|now repeat split].
    destruct (take_nth_split _ _ _ _ E) as [l1 [l2 [Hl ->]]].
    rewrite Hl in Hp. apply Forall_app in Hp as [Hp1 Hp2].
    inversion Hp2 as [|? ? Hth Hp2']; subst.
    assert (Hrest : Forall thread_ok (l1 ++ l2)) by (apply Forall_app; auto).
    remember (record (Settled (awaits th) (resolved r))
                {| ui := ui m; pending := l1 ++ l2; timers := timers m;
                   history := history m |}) as m0.
    assert (Hui : ui m0 = ui m) by (subst m0; reflexivity).
    assert (Hpm : pending m0 = l1 ++ l2) by (subst m0; reflexivity).
    assert (Htm : timers m0 = timers m) by (subst m0; reflexivity).
    assert (Hm0 : (attempts_in_flight m0
                   + (if is_update (origin th) then 1 else 0))%nat
                  = attempts_in_flight m).
    { unfold attempts_in_flight. rewrite Hpm, Hl.
      rewrite !filter_app, !length_app. simpl.
      destruct (is_update (origin th)); simpl; lia. }
    rewrite <- Hpm in Hrest. rewrite <- Htm in Ht.
    unfold thread_ok in Hth.
    destruct (is_update (origin th)) eqn:Ho.
    + assert (Hor : origin th = HandleUpdate)
        by (destruct (origin th); auto; discriminate).
      rewrite Hor.
      pose proof (advance_attempt _ m0 (Hth r) Hrest Ht) as X. cbv zeta in X.
      remember (advance HandleUpdate (kont th r) m0) as m1.
      assert (Hu : updating (ui m) = true /\ attempts_in_flight m0 = 0%nat).
      { destruct (updating (ui m)); split; auto; lia. }
      destruct Hu as [Hu H0]. rewrite Hui, Hu, H0 in X.
      destruct X as [A [B [[C1 C2]|[C1 C2]]]];
        (split; [exact A | split; [exact B|]]); rewrite C1, C2; reflexivity.
    + pose proof (advance_bystander (origin th) _ m0 (Hth r) Ho Hrest Ht) as X.
      cbv zeta in X.
      remember (advance (origin th) (kont th r) m0) as m1.
      destruct X as [A [B [C D]]].
      split; [exact A | split; [exact B|]].
      rewrite C, D, Hui, <- Hc. lia.
  - (* Fire *)
    destruct (take_nth i (timers m)) as [[cb rest]|] eqn:E; [|now repeat split].
    destruct (take_nth_split _ _ _ _ E) as [l1 [l2 [Hl ->]]].
    rewrite Hl in Ht. apply Forall_app in Ht as [Ht1 Ht2].
    inversion Ht2 as [|? ? Hcb Ht2']; subst.
    split; [exact Hp|]. split; [apply Forall_app; now split|].
    unfold attempts_in_flight in *. simpl. rewrite Hcb. exact Hc.
Qed.

Lemma consistent_steps tauri inputs m :
  consistent m -> consistent (steps tauri m inputs).
Proof.
  revert m. induction inputs as [|i inputs IH]; intros m H; simpl; auto.
  apply IH. now apply consistent_step.
Qed.

(** C8: whatever has happened since the component started, at most one
    update attempt is suspended at the backend, and while one is, a click
    on the update button changes nothing: no state, no new call. *)
Theorem C8_second_trigger_is_noop
    (tauri : bool) (s : AppState) (inputs : list input) :
  updating s = false ->
  let m := steps tauri (start s) inputs in
  (attempts_in_flight m <= 1)%nat
  /\ ((0 < attempts_in_flight m)%nat -> step tauri m ClickUpdate = m).
Proof.
  intros Hs m.
  destruct (consistent_steps tauri inputs (start s) (consistent_start s Hs))
    as [_ [_ Hc]].
  fold m in Hc. split.
  - rewrite Hc. destruct (updating (ui m)); lia.
  - intro Hpos. simpl. unfold buttons_enabled.
    destruct (updating (ui m)); [|lia].
    now rewrite andb_false_r.
Qed.

Lemma C8_witness :
  step true (steps true (start initial) clicked_once) ClickUpdate
  = steps true (start initial) clicked_once.
Proof.
  apply (proj2 (C8_second_trigger_is_noop true initial clicked_once eq_refl)).
  vm_compute. lia.
Defined.

End OneAtATime.

(* ================================================================== *)
(** * findLocalInstaller: which file is chosen *)
(* ================================================================== *)

Section Installer.

Import Lnode.
#[local] Open Scope list_scope.

Lemma startsWith_app (s p q : string) :
  JS.startsWith s (p ++ q)%string = true -> JS.startsWith s p = true.
Proof.
  revert s. induction p as [|a p IH]; intros s H; [now destruct s|].
  destruct s as [|b s]; simpl in *; [discriminate|].
  apply andb_true_iff in H as [H1 H2].
  now rewrite H1, (IH s H2).
Qed.

Lemma is_msi_x64_is_msi (f : string) : is_msi_x64 f = true -> is_msi f = true.
Proof.
  unfold is_msi_x64, is_msi. intro H.
  apply andb_true_iff in H as [H _]. apply andb_true_iff in H as [H1 H2].
  rewrite H2, andb_true_r.
  now apply (startsWith_app f "node" "-v").
Qed.

Lemma installer_among_win32 (files : list string) :
  installer_among "win32" files
  = JS.or_else (find is_msi_x64 files) (find is_msi files).
Proof. reflexivity. Qed.

Lemma installer_among_darwin (files : list string) :
  installer_among "darwin" files = find is_pkg files.
Proof. reflexivity. Qed.

Lemma installer_among_elsewhere (platform : string) (files : list string) :
  platform <> "win32" -> platform <> "darwin" ->
  installer_among platform files = None.
Proof.
  intros Hw Hd. unfold installer_among.
  apply String.eqb_neq in Hw, Hd. now rewrite Hw, Hd.
Qed.

(** X1: the file [findLocalInstaller] picks is one of the files of the
    tool directory, its name starts with "node", and it is an ".msi" on
    Windows and a ".pkg" on macOS; no other platform gets one. *)
Theorem X1_installer_is_a_listed_package
    (platform : string) (files : list string) (f : string) :
  installer_among platform files = Some f ->
  In f files
  /\ JS.startsWith f "node" = true
  /\ ((platform = "win32" /\ JS.endsWith f ".msi" = true)
      \/ (platform = "darwin" /\ JS.endsWith f ".pkg" = true)).
Proof.
  intro H.
  destruct (String.eqb_spec platform "win32") as [->|Hw].
  - rewrite installer_among_win32 in H.
    assert (Hf : In f files /\ is_msi f = true).
    { destruct (find is_msi_x64 files) as [g|] eqn:E; simpl in H.
      - injection H as ->. apply find_some in E as [E1 E2].
        split; [exact E1 | now apply is_msi_x64_is_msi].
      - now apply find_some in H. }
    destruct Hf as [Hin Hm]. apply andb_true_iff in Hm as [H1 H2].
    split; [exact Hin|]. split; [exact H1|]. left. now split.
  - destruct (String.eqb_spec platform "darwin") as [->|Hd].
    + rewrite installer_among_darwin in H.
      apply find_some in H as [Hin Hm]. apply andb_true_iff in Hm as [H1 H2].
      split; [exact Hin|]. split; [exact H1|]. right. now split.
    + rewrite installer_among_elsewhere in H by assumption. discriminate.
Qed.

Lemma X1_witness :
  In "node-v22.1.0-x64.msi" ["readme.txt"; "node-v22.1.0-x64.msi"]
  /\ JS.startsWith "node-v22.1.0-x64.msi" "node" = true
  /\ (("win32" = "win32" /\ JS.endsWith "node-v22.1.0-x64.msi" ".msi" = true)
      \/ ("win32" = "darwin" /\ JS.endsWith "node-v22.1.0-x64.msi" ".pkg" = true)).
Proof.
  apply (X1_installer_is_a_listed_package "win32"
           ["readme.txt"; "node-v22.1.0-x64.msi"] "node-v22.1.0-x64.msi").
  reflexivity.
Defined.

(** X2: on Windows an installer whose name starts with "node-v", ends with
    ".msi" and mentions "x64" wins over any other ".msi", wherever it
    stands in the listing: the file picked is the first such one. *)
Theorem X2_x64_installer_is_preferred (files : list string) (g : string) :
  In g files -> is_msi_x64 g = true ->
  exists f, installer_among "win32" files = Some f
            /\ find is_msi_x64 files = Some f
            /\ is_msi_x64 f = true.
Proof.
  intros Hin Hg. rewrite installer_among_win32.
  destruct (find is_msi_x64 files) as [f|] eqn:E.
  - exists f. split; [reflexivity|]. split; [reflexivity|].
    now apply find_some in E.
  - apply (find_none _ _ E) in Hin. congruence.
Qed.

Lemma X2_witness :
  exists f, installer_among "win32" ["node-legacy.msi"; "node-v22.1.0-x64.msi"] = Some f
            /\ find is_msi_x64 ["node-legacy.msi"; "node-v22.1.0-x64.msi"] = Some f
            /\ is_msi_x64 f = true.
Proof.
  apply (X2_x64_installer_is_preferred
           ["node-legacy.msi"; "node-v22.1.0-x64.msi"] "node-v22.1.0-x64.msi").
  - right. left. reflexivity.
  - reflexivity.
Defined.

(** X3: [findLocalInstaller] finds nothing exactly when no file qualifies:
    on Windows when no name starts with "node" and ends with ".msi", on
    macOS when none starts with "node" and ends with ".pkg", and always on
    any other platform. *)
Theorem X3_no_installer_iff_none_qualifies
    (platform : string) (files : list string) :
  installer_among platform files = None <->
  (platform = "win32" -> forall f, In f files -> is_msi f = false)
  /\ (platform = "darwin" -> forall f, In f files -> is_pkg f = false).
Proof.
  destruct (String.eqb_spec platform "win32") as [->|Hw].
  - rewrite installer_among_win32. split.
    + intro H. split; [|discriminate]. intros _ f Hin.
      destruct (find is_msi_x64 files) eqn:E; [discriminate|]. simpl in H.
      apply (find_none _ _ H _ Hin).
    + intros [H _]. specialize (H eq_refl).
      destruct (find is_msi_x64 files) as [g|] eqn:E.
      * apply find_some in E as [E1 E2]. apply is_msi_x64_is_msi in E2.
        rewrite (H g E1) in E2. discriminate.
      * simpl. destruct (find is_msi files) as [g|] eqn:E'; [|reflexivity].
        apply find_some in E' as [E1 E2]. rewrite (H g E1) in E2. discriminate.
  - destruct (String.eqb_spec platform "darwin") as [->|Hd].
    + rewrite installer_among_darwin. split.
      * intro H. split; [discriminate|]. intros _ f Hin.
        apply (find_none _ _ H _ Hin).
      * intros [_ H]. specialize (H eq_refl).
        destruct (find is_pkg files) as [g|] eqn:E; [|reflexivity].
        apply find_some in E as [E1 E2]. rewrite (H g E1) in E2. discriminate.
    + rewrite installer_among_elsewhere by assumption.
      split; [|reflexivity]. intros _. split; intro; contradiction.
Qed.

End Installer.

(* ================================================================== *)
(** * installLatestNode: fallbacks and failures *)
(* ================================================================== *)

(** Evaluates [installLatestNode] for every platform, directory listing
    and pattern of failing calls. *)
Ltac chain_cases w platform :=
  destruct w as [pl ver dir files reg fs evs];
  cbn [Lnode.tool_files Lnode.faults Lnode.dirname] in *;
  unfold produced, Lnode.installLatestNode, Lnode.local_attempt,
    Lnode.findLocalInstaller, Lnode.online_fallback;
  let E := fresh "E" in
  destruct (Lnode.installer_among platform files) as [name|] eqn:E;
  (destruct (String.eqb platform "win32") eqn:Hw;
   [|destruct (String.eqb platform "darwin") eqn:Hd]);
  destruct fs as [|[?|] [|[?|] [|[?|] fs]]];
  run_host; rewrite ?E; run_host; simpl;
  rewrite <- ?app_assoc, ?skipn_exact.

Section ChainMore.

Import Lnode.
#[local] Open Scope list_scope.

Lemma installLatestNode_result (platform : string) (w : world) :
  fst (installLatestNode platform w)
  = if next_call_fails w then Throw (listing_error w) else Ok tt.
Proof.
  unfold next_call_fails, listing_error.
  chain_cases w platform; reflexivity.
Qed.


Lemma installLatestNode_listing_fails (platform : string) (w : world) :
  next_call_fails w = true ->
  commands (produced (installLatestNode platform) w) = [].
Proof.
  unfold next_call_fails. intro H.
  chain_cases w platform; try discriminate H; reflexivity.
Qed.

(** X4: of all that [installLatestNode] calls, only the listing of the
    tool directory can make it throw: if that listing fails the function
    throws before any command has run, and otherwise it returns normally
    whatever installer or package manager fails. *)
Theorem X4_only_the_listing_aborts_the_chain (platform : string) (w : world) :
  (next_call_fails w = true ->
   (exists msg, fst (installLatestNode platform w) = Throw msg)
   /\ commands (produced (installLatestNode platform) w) = [])
  /\ (next_call_fails w = false ->
      fst (installLatestNode platform w) = Ok tt).
Proof.
  pose proof (installLatestNode_result platform w) as R.
  split; intro H; rewrite H in R.
  - split; [eexists; exact R | now apply installLatestNode_listing_fails].
  - exact R.
Qed.

Lemma X4_witness :
  ((exists msg,
      fst (installLatestNode "win32"
             host_unlisted) = Throw msg)
   /\ commands (produced (installLatestNode "win32")
                  host_unlisted) = [])
  /\ fst (installLatestNode "win32" host_msi) = Ok tt.
Proof.
  split.
  - apply (proj1 (X4_only_the_listing_aborts_the_chain "win32"
                    host_unlisted)).
    reflexivity.
  - apply (proj2 (X4_only_the_listing_aborts_the_chain "win32" host_msi)).
    reflexivity.
Defined.







(** X6: on a platform that is neither Windows nor macOS,
    [installLatestNode] runs no command at all, whatever files lie in the
    tool directory: it lists the directory, finds nothing to use and logs
    the advice to install by hand. *)
Theorem X6_other_platforms_get_advice_only (platform : string) (w : world) :
  platform <> "win32" -> platform <> "darwin" ->
  next_call_fails w = false ->
  produced (installLatestNode platform) w
  = [ chain_starts;
      ReadDir (dirname w);
      Log info "未在 tool 目录找到 Node.js 安装包，准备在线安装...";
      Log info "Linux 系统建议使用 nvm 或包管理器安装" ].
Proof.
  unfold next_call_fails. intros Hw' Hd' H.
  pose proof (installer_among_elsewhere platform (tool_files w) Hw' Hd') as N.
  apply String.eqb_neq in Hw', Hd'.
  chain_cases w platform; try discriminate H; try discriminate N;
    try congruence; reflexivity.
Qed.

Lemma X6_witness :
  produced (installLatestNode "linux")
    (boot "linux" "v18.2.0" "/opt/tool" ["node-v22.1.0.pkg"; "node.msi"] "" [])
  = [ chain_starts;
      ReadDir "/opt/tool";
      Log info "未在 tool 目录找到 Node.js 安装包，准备在线安装...";
      Log info "Linux 系统建议使用 nvm 或包管理器安装" ].
Proof.
  apply (X6_other_platforms_get_advice_only "linux"
           (boot "linux" "v18.2.0" "/opt/tool"
              ["node-v22.1.0.pkg"; "node.msi"] "" []));
    [discriminate | discriminate | reflexivity].
Defined.

End ChainMore.

(* ================================================================== *)
(** * configureNpmMirror and checkAndInstallBuildTools: failures contained *)
(* ================================================================== *)

(** Evaluates [configureNpmMirror] for each answer of npm and each pattern
    of failing calls. *)
Ltac mirror_cases w :=
  destruct w as [pl ver dir files reg fs evs];
  cbn [Lnode.registry Lnode.faults] in *;
  unfold produced, configured, Lnode.configureNpmMirror;
  let E := fresh "E" in
  destruct (String.eqb (JS.trim (reg ++ Lnode.newline))
              (Lnode.npmRegistry Lnode.CONFIG)) eqn:E;
  destruct fs as [|[?|] [|[?|] fs]];
  run_host;
  rewrite ?get_is_get; run_host; rewrite ?E; run_host;
  rewrite ?set_is_not_get, ?set_is_set; run_host;
  rewrite ?E;
  cbv zeta; rewrite <- ?app_assoc, ?skipn_exact.

(** Evaluates [checkAndInstallBuildTools] for each pattern of failing
    calls. *)
Ltac tools_cases w :=
  destruct w as [pl ver dir files reg fs evs];
  cbn [Lnode.registry Lnode.faults] in *;
  unfold produced, Lnode.checkAndInstallBuildTools;
  destruct fs as [|[?|] [|[?|] fs]];
  run_host; simpl; rewrite <- ?app_assoc, ?skipn_exact.

Section MirrorMore.

Import Lnode.
#[local] Open Scope list_scope.

Lemma configureNpmMirror_returns (w : world) :
  fst (configureNpmMirror w) = Ok tt.
Proof. mirror_cases w; reflexivity. Qed.

(** X7: [configureNpmMirror] never throws, whatever command fails; the
    only write it ever runs sets the registry to the mirror of [CONFIG];
    and it leaves npm's registry either as it was or equal to that
    mirror. *)
Theorem X7_mirror_never_throws_and_writes_only_the_mirror (w : world) :
  fst (configureNpmMirror w) = Ok tt
  /\ (forall cmd, In cmd (writes (produced configureNpmMirror w)) ->
      cmd = (npm_set_registry ++ npmRegistry CONFIG)%string)
  /\ (registry (configured w) = registry w
      \/ registry (configured w) = npmRegistry CONFIG).
Proof.
  mirror_cases w;
    (split; [reflexivity|]);
    (split; [intros cmd Hc; simpl in Hc; intuition auto
            | first [left; reflexivity | right; reflexivity]]).
Qed.

(** X8: when [npm config get registry] fails, [configureNpmMirror] gives
    up on the spot: the failed read is the only command it runs, the
    failure is logged as an error that ends in the message of what was
    thrown, whatever that message is, and the registry is not touched. *)
Theorem X8_failed_read_writes_nothing (w : world) :
  next_call_fails w = true ->
  (exists message,
     produced configureNpmMirror w
     = [ mirror_starts;
         Exec npm_get_registry;
         Threw message;
         Log error ("配置 npm 镜像源失败: " ++ message)%string ])
  /\ registry (configured w) = registry w.
Proof.
  unfold next_call_fails. intro H.
  mirror_cases w; try discriminate H; split; try reflexivity;
    eexists; reflexivity.
Qed.

Lemma X8_witness :
  (exists message,
     produced configureNpmMirror host_without_npm
     = [ mirror_starts;
         Exec npm_get_registry;
         Threw message;
         Log error ("配置 npm 镜像源失败: " ++ message)%string ])
  /\ registry (configured host_without_npm) = "https://registry.npmjs.org/".
Proof.
  apply (X8_failed_read_writes_nothing host_without_npm).
  reflexivity.
Defined.

(** X9: when no command of [configureNpmMirror] fails, npm afterwards
    reports the mirror of [CONFIG] as its registry: the configured value,
    read back and trimmed as the function reads it, equals the mirror. *)
Theorem X9_mirror_is_configured_afterwards (w : world) :
  no_failure (produced configureNpmMirror w) = true ->
  JS.trim (registry (configured w) ++ newline)%string = npmRegistry CONFIG.
Proof.
  intro H. apply String.eqb_eq.
  now apply (configureNpmMirror_once w).
Qed.

Lemma X9_witness :
  JS.trim (registry (configured host_default) ++ newline)%string
  = npmRegistry CONFIG.
Proof. apply (X9_mirror_is_configured_afterwards host_default). reflexivity. Defined.

Lemma checkAndInstallBuildTools_summary (w : world) :
  fst (checkAndInstallBuildTools w) = Ok tt
  /\ commands (produced checkAndInstallBuildTools w)
     = "python --version"%string
       :: (if next_call_fails w then ["npm install -g node-gyp"%string] else [])
  /\ registry (snd (checkAndInstallBuildTools w)) = registry w.
Proof.
  unfold next_call_fails.
  tools_cases w; repeat split; reflexivity.
Qed.

(** X10: [checkAndInstallBuildTools] never throws; it always asks for
    [python --version], and it runs [npm install -g node-gyp] exactly when
    that check failed; it does not touch the registry. *)
Theorem X10_build_tools_follow_the_python_check (w : world) :
  fst (checkAndInstallBuildTools w) = Ok tt
  /\ commands (produced checkAndInstallBuildTools w)
     = "python --version"%string
       :: (if next_call_fails w then ["npm install -g node-gyp"%string] else [])
  /\ registry (snd (checkAndInstallBuildTools w)) = registry w.
Proof. exact (checkAndInstallBuildTools_summary w). Qed.

End MirrorMore.

(* ================================================================== *)
(** * main: the stages of a run *)
(* ================================================================== *)

Section MainMore.

Import Lnode.
#[local] Open Scope list_scope.

Lemma bind_ok {A B} (m : M A) (k : A -> M B) (w : world) (a : A) :
  fst (m w) = Ok a -> bind m k w = k a (snd (m w)).
Proof. unfold bind. destruct (m w) as [[x|e] w']; simpl; congruence. Qed.

Lemma try_catch_ok {A} (body : M A) (h : string -> M A) (w : world) (a : A) :
  fst (body w) = Ok a -> try_catch body h w = body w.
Proof. unfold try_catch. destruct (body w) as [[x|e] w']; simpl; congruence. Qed.

Lemma produced_of_events {A} (m : M A) (w : world) (tr : list event) :
  events (snd (m w)) = events w ++ tr -> produced m w = tr.
Proof. unfold produced. intros ->. apply skipn_exact. Qed.

Lemma commands_app (a b : list event) :
  commands (a ++ b) = commands a ++ commands b.
Proof.
  induction a as [|e a IH]; simpl; [reflexivity|].
  destruct e; simpl; now rewrite ?IH.
Qed.

Lemma faults_add_event (e : event) (w : world) :
  faults (add_event e w) = faults w.
Proof. reflexivity. Qed.

Lemma installLatestNode_no_exit (platform : string) :
  emits no_exit (installLatestNode platform).
Proof.
  unfold installLatestNode, local_attempt, online_fallback, findLocalInstaller.
  repeat emits_step; exact I.
Qed.

Lemma configureNpmMirror_no_exit : emits no_exit configureNpmMirror.
Proof. unfold configureNpmMirror. repeat emits_step; exact I. Qed.

Lemma checkAndInstallBuildTools_no_exit : emits no_exit checkAndInstallBuildTools.
Proof. unfold checkAndInstallBuildTools. repeat emits_step; exact I. Qed.

Lemma configureNpmMirror_reads_first (w : world) :
  exists rest,
    produced configureNpmMirror w = mirror_starts :: Exec npm_get_registry :: rest.
Proof. mirror_cases w; eexists; reflexivity. Qed.

(** The stages of [main] after the gate, when none of them throws. *)
Lemma stages_run (G T : M unit) (w0 : world) :
  fst (G w0) = Ok tt -> (forall w, fst (T w) = Ok tt) ->
  try_catch (G ;; configureNpmMirror ;; T ;; log success "lnode.js 执行完成！环境已就绪。")
    main_handler w0
  = (Ok tt, add_event final_line (snd (T (configured (snd (G w0)))))).
Proof.
  intros HG HT.
  assert (HC : fst (configureNpmMirror (snd (G w0))) = Ok tt)
    by apply configureNpmMirror_returns.
  unfold try_catch.
  rewrite (bind_ok G _ w0 tt HG), (bind_ok configureNpmMirror _ _ tt HC).
  fold (configured (snd (G w0))).
  rewrite (bind_ok T _ _ tt (HT _)). reflexivity.
Qed.

Lemma stages_trace (P : event -> Prop) (G T : M unit) (w0 : world) :
  emits P G -> emits P T -> emits P configureNpmMirror ->
  exists trG trT,
    events (snd (T (configured (snd (G w0)))))
    = events w0 ++ trG ++ produced configureNpmMirror (snd (G w0)) ++ trT
    /\ trT = produced T (configured (snd (G w0)))
    /\ Forall P (trG ++ produced configureNpmMirror (snd (G w0)) ++ trT).
Proof.
  intros HG HT HC.
  destruct (HG w0) as [trG [EG FG]].
  destruct (HC (snd (G w0))) as [trC [EC FC]].
  destruct (HT (configured (snd (G w0)))) as [trT [ET FT]].
  rewrite (produced_of_events _ _ _ EC).
  exists trG, trT. split; [|split].
  - rewrite ET. unfold configured. rewrite EC, EG. now rewrite <- !app_assoc.
  - symmetry. now apply produced_of_events.
  - repeat (apply Forall_app; split); assumption.
Qed.

Lemma main_stages (w : world) :
  main w
  = try_catch
      (gate_stage w ;; configureNpmMirror ;; tools_stage w ;;
       log success "lnode.js 执行完成！环境已就绪。")
      main_handler (after_preamble w).
Proof. reflexivity. Qed.

Lemma events_after_preamble (w : world) :
  events (after_preamble w) = events w ++ preamble w.
Proof. unfold after_preamble, preamble. simpl. now rewrite <- !app_assoc. Qed.

Lemma gate_stage_ok (w : world) :
  hard_failure w = false -> fst (gate_stage w (after_preamble w)) = Ok tt.
Proof.
  unfold hard_failure, gate_stage. intro H.
  destruct (version_too_low (version w) (minNodeVersion CONFIG)); [|reflexivity].
  simpl in H.
  match goal with
  | |- fst (bind (log ?l ?msg) ?k ?w0) = _ =>
      change (fst (installLatestNode (platform w) (add_event (Log l msg) w0)) = Ok tt)
  end.
  rewrite installLatestNode_result.
  change (next_call_fails (add_event _ (after_preamble w)))
    with (next_call_fails w).
  now rewrite H.
Qed.

Lemma tools_stage_ok (w w' : world) : fst (tools_stage w w') = Ok tt.
Proof.
  unfold tools_stage. destruct (String.eqb (platform w) "win32"); [|reflexivity].
  apply checkAndInstallBuildTools_summary.
Qed.

Lemma gate_stage_no_exit (w : world) : emits no_exit (gate_stage w).
Proof.
  unfold gate_stage. pose proof (installLatestNode_no_exit (platform w)).
  repeat (assumption || emits_step); exact I.
Qed.

Lemma tools_stage_no_exit (w : world) : emits no_exit (tools_stage w).
Proof.
  unfold tools_stage. pose proof checkAndInstallBuildTools_no_exit.
  repeat (assumption || emits_step); exact I.
Qed.

(** A run of [main] that meets no hard failure, stage by stage. *)
Lemma main_soft (w : world) :
  hard_failure w = false ->
  fst (main w) = Ok tt
  /\ exists trG,
       produced main w
       = preamble w ++ trG
         ++ produced configureNpmMirror (snd (gate_stage w (after_preamble w)))
         ++ produced (tools_stage w)
              (configured (snd (gate_stage w (after_preamble w))))
         ++ [final_line]
       /\ Forall no_exit trG.
Proof.
  intro H.
  rewrite main_stages.
  rewrite (stages_run (gate_stage w) (tools_stage w) (after_preamble w)
             (gate_stage_ok w H) (tools_stage_ok w)).
  split; [reflexivity|].
  destruct (stages_trace no_exit (gate_stage w) (tools_stage w) (after_preamble w)
              (gate_stage_no_exit w) (tools_stage_no_exit w)
              configureNpmMirror_no_exit) as [trG [trT [E [ET F]]]].
  exists trG. split.
  - apply produced_of_events.
    rewrite main_stages.
    rewrite (stages_run (gate_stage w) (tools_stage w) (after_preamble w)
               (gate_stage_ok w H) (tools_stage_ok w)).
    unfold final_line.
    cbn [snd events add_event]. rewrite E, events_after_preamble, ET.
    now rewrite <- !app_assoc.
  - now apply Forall_app in F as [F _].
Qed.

Lemma main_hard (w : world) :
  hard_failure w = true ->
  fst (main w) = Ok tt
  /\ produced main w
     = preamble w ++ gate_failed
       ++ [ chain_starts; ReadDir (dirname w); Threw (listing_error w);
            Log error ("执行过程中发生错误: " ++ listing_error w)%string;
            ConsoleError ("Error: " ++ listing_error w)%string; Exit 1 ].
Proof.
  unfold hard_failure, next_call_fails, listing_error. intro H.
  apply andb_true_iff in H as [V H].
  unfold produced. rewrite !main_at_gate, !V.
  destruct w as [pl ver dir files reg fs evs]. cbn [faults] in H.
  destruct fs as [|[message|] fs]; try discriminate H.
  unfold installLatestNode, local_attempt, findLocalInstaller, main_handler.
  run_host. simpl. rewrite <- ?app_assoc, ?skipn_exact.
  split; reflexivity.
Qed.

(** X11: [main] never throws, and of all that can fail in a run only one
    thing ends it early: the gate fails and the tool directory cannot be
    listed.  Then the error is logged and the process exits with code 1
    before any command has run.  In every other run, whatever commands
    fail, nothing exits, npm is asked for its registry, and the last line
    is the success line. *)
Theorem X11_main_contains_command_failures (w : world) :
  fst (main w) = Ok tt
  /\ (hard_failure w = false ->
      exists pre,
        produced main w = pre ++ [final_line]
        /\ Forall no_exit pre
        /\ In npm_get_registry (commands pre))
  /\ (hard_failure w = true ->
      produced main w
      = preamble w ++ gate_failed
        ++ [ chain_starts; ReadDir (dirname w); Threw (listing_error w);
             Log error ("执行过程中发生错误: " ++ listing_error w)%string;
             ConsoleError ("Error: " ++ listing_error w)%string; Exit 1 ]).
Proof.
  split; [|split].
  - destruct (hard_failure w) eqn:H;
      [now apply main_hard | now apply main_soft].
  - intro H. destruct (main_soft w H) as [_ [trG [E F]]].
    destruct (stages_trace no_exit (gate_stage w) (tools_stage w) (after_preamble w)
                (gate_stage_no_exit w) (tools_stage_no_exit w)
                configureNpmMirror_no_exit) as [trG' [trT [_ [ET F']]]].
    eexists. split; [rewrite E, !app_assoc; reflexivity|]. split.
    + rewrite <- !app_assoc. apply Forall_app. split.
      { unfold preamble. repeat constructor. }
      rewrite <- ET. apply Forall_app in F' as [_ F'].
      apply Forall_app. split; assumption.
    + rewrite !commands_app.
      destruct (configureNpmMirror_reads_first
                  (snd (gate_stage w (after_preamble w)))) as [rest ->].
      apply in_or_app. left. apply in_or_app. right. left. reflexivity.
  - intro H. now apply main_hard.
Qed.

Lemma X11_witness :
  (exists pre,
     produced main host_msi = pre ++ [final_line]
     /\ Forall no_exit pre
     /\ In npm_get_registry (commands pre))
  /\ last (produced main host_unlisted)
       final_line
     = Exit 1.
Proof.
  split.
  - apply (proj1 (proj2 (X11_main_contains_command_failures host_msi))).
    reflexivity.
  - rewrite (proj2 (proj2 (X11_main_contains_command_failures
                             host_unlisted))
               eq_refl).
    reflexivity.
Defined.

Lemma main_elsewhere_no_build_tools (w : world) :
  platform w <> "win32" -> emits no_build_tools
    (try_catch
       (gate_stage w ;; configureNpmMirror ;; tools_stage w ;;
        log success "lnode.js 执行完成！环境已就绪。")
       main_handler).
Proof.
  intro Hp. apply String.eqb_neq in Hp.
  unfold gate_stage, tools_stage, configureNpmMirror, installLatestNode,
    local_attempt, online_fallback, findLocalInstaller, main_handler.
  rewrite Hp.
  repeat emits_step; try exact I;
    unfold msiexec, sudo_installer, winget, brew, npm_get_registry,
      npm_set_registry;
    simpl; split; discriminate.
Qed.

(** X12: the build tools are a matter of Windows only.  On any other
    platform a run of [main] never calls [python --version] or
    [npm install -g node-gyp]; on Windows every run that meets no hard
    failure calls [python --version]. *)
Theorem X12_build_tools_only_on_windows (w : world) :
  (platform w <> "win32" -> Forall no_build_tools (produced main w))
  /\ (platform w = "win32" -> hard_failure w = false ->
      In "python --version"%string (commands (produced main w))).
Proof.
  split.
  - intro Hp.
    destruct (main_elsewhere_no_build_tools w Hp (after_preamble w))
      as [tr [E F]].
    rewrite <- main_stages, events_after_preamble, <- app_assoc in E.
    rewrite (produced_of_events _ _ _ E).
    apply Forall_app. split; [|exact F].
    unfold preamble. repeat constructor.
  - intros Hp H. destruct (main_soft w H) as [_ [trG [E _]]].
    rewrite E, !commands_app.
    apply in_or_app. right. apply in_or_app. right. apply in_or_app. right.
    apply in_or_app. left.
    unfold tools_stage. rewrite Hp. cbn [String.eqb Ascii.eqb Bool.eqb].
    rewrite (proj1 (proj2 (checkAndInstallBuildTools_summary _))).
    left. reflexivity.
Qed.

Lemma X12_witness :
  Forall no_build_tools (produced main host_old)
  /\ In "python --version"%string (commands (produced main host_msi)).
Proof.
  split.
  - apply (proj1 (X12_build_tools_only_on_windows host_old)). discriminate.
  - apply (proj2 (X12_build_tools_only_on_windows host_msi)); reflexivity.
Defined.

(** X13: the gate reads nothing but the number between the first
    character and the first dot: whatever the first character is and
    whatever follows the first dot (minor, patch, a pre-release tag), a
    version with major number [a] satisfies a minimum [m] that is a safe
    integer, as the 22 of [CONFIG] is, iff [m <= a]. *)
Theorem X13_gate_reads_only_the_major
    (c : ascii) (a : N) (rest : string) (m : Z) :
  JS.isSafeInteger m = true ->
  (satisfies (String c (Semver.dec a ++ "." ++ rest)) m = true <-> m <= Z.of_N a).
Proof.
  intros _.
  unfold satisfies, version_too_low, majorVersion. cbn [JS.substring1].
  unfold Semver.dec at 1.
  change ("." ++ rest)%string with (String "." rest).
  rewrite split_dot_0_numeral. fold (Semver.dec a).
  rewrite parseInt10_dec. unfold JS.lt.
  now rewrite negb_true_iff, Z.ltb_ge.
Qed.

(** A nightly build of Node 23 against the minimum of [CONFIG]. *)
Lemma X13_witness :
  satisfies "v23.0.0-nightly20241002" (minNodeVersion CONFIG) = true
  <-> minNodeVersion CONFIG <= 23.
Proof.
  apply (X13_gate_reads_only_the_major "v" 23 "0.0-nightly20241002"
           (minNodeVersion CONFIG)).
  reflexivity.
Defined.

End MainMore.

(* ================================================================== *)
(** * The handlers, path by path *)
(* ================================================================== *)

Section Handlers.

Import App.
#[local] Open Scope list_scope.

Ltac attempt_cases backend tauri :=
  simpl;
  destruct (backend backup_user_config) as [msg|e] eqn:Eb; simpl;
  [ destruct (backend update_openclaw) as [[[|] msg' er]|e] eqn:Eu; simpl;
    [ destruct tauri; simpl;
      [ destruct (backend check_environment) as [st|e] eqn:Ee; simpl | ]
    | | ]
  | ].

(** X14: [checkEnvironment] always ends with [isReady] set to true, in a
    browser, on a backend answer and on a backend failure alike; it
    stores the environment status only when the backend answers, and it
    changes nothing of the update state. *)
Theorem X14_checkEnvironment_always_shows_the_ui
    (tauri : bool) (backend : forall c, outcome (reply c)) (m : machine) :
  let m' := run backend (checkEnvironment tauri) m in
  isReady (ui m') = Some true
  /\ envStatus (ui m')
     = (if tauri
        then match backend check_environment with
             | Resolved status => Some status
             | Rejected _ => envStatus (ui m)
             end
        else envStatus (ui m))
  /\ updateInfo (ui m') = updateInfo (ui m)
  /\ showUpdateBanner (ui m') = showUpdateBanner (ui m)
  /\ updating (ui m') = updating (ui m)
  /\ updateResult (ui m') = updateResult (ui m)
  /\ (tauri = false -> history m' = history m ++ [Logged lwarn "不在 Tauri 环境中，跳过环境检查"]).
Proof.
  destruct tauri; simpl;
    [destruct (backend check_environment); simpl|];
    repeat split; try reflexivity; discriminate.
Qed.

(** X15: after a check of the update source that the backend answered,
    the answer is stored and the condition the main view puts on the dialog
    holds exactly when the answer reports an update, whatever was shown
    before; the dialog itself is on screen exactly when, besides, the
    loading screen is gone ([isReady] is not null, which a check of the
    update source leaves as it is).  The banner flag is never turned off by
    a check, and nothing else of the state changes.  Outside Tauri
    [checkUpdate] does nothing at all. *)
Theorem X15_checkUpdate_stores_the_answer
    (tauri : bool) (backend : forall c, outcome (reply c)) (m : machine) :
  let m' := run backend (checkUpdate tauri) m in
  (tauri = false -> m' = m)
  /\ (forall info, tauri = true ->
        backend check_openclaw_update = Resolved info ->
        updateInfo (ui m') = Some info
        /\ banner_rendered (ui m') = update_available info
        /\ dialog_rendered (ui m')
           = negb (loading (ui m')) && update_available info)
  /\ showUpdateBanner (ui m')
     = showUpdateBanner (ui m)
       || (tauri && announces_update (backend check_openclaw_update))
  /\ isReady (ui m') = isReady (ui m)
  /\ envStatus (ui m') = envStatus (ui m)
  /\ updating (ui m') = updating (ui m)
  /\ updateResult (ui m') = updateResult (ui m).
Proof.
  destruct tauri; simpl.
  - destruct (backend check_openclaw_update) as [info|e] eqn:E; simpl.
    + split; [discriminate|]. split.
      * intros info' _ [= <-]. unfold dialog_rendered, loading, banner_rendered.
        destruct (update_available info) eqn:U; simpl; rewrite ?U;
          rewrite ?andb_false_r; repeat split; reflexivity.
      * destruct (update_available info); simpl;
          rewrite ?orb_true_r, ?orb_false_r; repeat split.
    + split; [discriminate|]. split; [discriminate|].
      rewrite orb_false_r. repeat split.
  - split; [reflexivity|]. split; [discriminate|].
    rewrite orb_false_r. repeat split.
Qed.

(** The same answer while the loading screen is up and once it is gone. *)
Lemma X15_witness :
  run backend_ok (checkUpdate false) (start initial) = start initial
  /\ (updateInfo (ui (run backend_ok (checkUpdate true) (start initial)))
      = Some {| update_available := true; current_version := Some "0.0.5";
                latest_version := Some "0.0.6"; info_error := None |}
      /\ banner_rendered (ui (run backend_ok (checkUpdate true) (start initial)))
         = true
      /\ dialog_rendered (ui (run backend_ok (checkUpdate true) (start initial)))
         = false)
  /\ dialog_rendered
       (ui (run backend_ok (checkUpdate true)
              (start (setIsReady (Some true) initial))))
     = true.
Proof.
  split; [|split].
  - apply (proj1 (X15_checkUpdate_stores_the_answer false backend_ok
                    (start initial))).
    reflexivity.
  - apply (proj1 (proj2 (X15_checkUpdate_stores_the_answer true backend_ok
                           (start initial)))); reflexivity.
  - apply (proj1 (proj2 (X15_checkUpdate_stores_the_answer true backend_ok
                           (start (setIsReady (Some true) initial))))
             _ eq_refl eq_refl).
Defined.

(** X17: the three-second timer that closes the dialog, and the fresh
    check of the environment, belong to a successful update only: the
    attempt sets the timer exactly when the backup resolved and the
    update resolved with [success] set, and (in Tauri) it calls
    [check_environment] exactly then.  A failed attempt sets no timer of
    its own. *)
Theorem X17_timer_only_after_success
    (tauri : bool) (backend : forall c, outcome (reply c)) (s : AppState) :
  let m' := run backend (handleUpdate tauri) (start s) in
  timers m' = (if attempt_succeeds backend then [close_banner] else [])
  /\ invocations check_environment (history m')
     = (if attempt_succeeds backend && tauri then 1 else 0)%nat.
Proof.
  unfold attempt_succeeds. attempt_cases backend tauri; split; reflexivity.
Qed.

(** X18: one attempt calls [backup_user_config] exactly once and
    [update_openclaw] once if the backup resolved and not at all
    otherwise; by itself it leaves the stored update info and the banner
    flag as they were. *)
Theorem X18_one_backup_one_update_per_attempt
    (tauri : bool) (backend : forall c, outcome (reply c)) (s : AppState) :
  let m' := run backend (handleUpdate tauri) (start s) in
  invocations backup_user_config (history m') = 1%nat
  /\ invocations update_openclaw (history m')
     = (if resolved (backend backup_user_config) then 1 else 0)%nat
  /\ updateInfo (ui m') = updateInfo s
  /\ showUpdateBanner (ui m') = showUpdateBanner s.
Proof.
  attempt_cases backend tauri; repeat split; reflexivity.
Qed.

End Handlers.

(* ================================================================== *)
(** * The component as a machine: what every interleaving keeps *)
(* ================================================================== *)

Section MachineMore.

Import App.
#[local] Open Scope list_scope.

Lemma checkEnvironment_tauri :
  checkEnvironment true
  = Note linfo "开始检查系统环境..." (Await check_environment env_answer).
Proof. reflexivity. Qed.

Lemma checkUpdate_tauri :
  checkUpdate true
  = Note linfo "检查 OpenClaw 更新..." (Await check_openclaw_update info_answer).
Proof. reflexivity. Qed.

Lemma invocations_app (c : command) (a b : list obs) :
  invocations c (a ++ b) = (invocations c a + invocations c b)%nat.
Proof.
  induction a as [|x a IH]; simpl; [reflexivity|].
  destruct x as [c'| | |]; try exact IH.
  destruct c, c'; simpl; rewrite ?IH; reflexivity.
Qed.

Lemma backups_done_app (a b : list obs) :
  backups_done (a ++ b) = (backups_done a + backups_done b)%nat.
Proof.
  induction a as [|x a IH]; simpl; [reflexivity|].
  destruct x as [|[] []| |]; simpl; rewrite ?IH; reflexivity.
Qed.

(** One event, by cases: what the component holds afterwards and what it
    adds to its history. *)
Ltac step_cases tauri m i :=
  let Hp := fresh "Hp" in
  let Ht := fresh "Ht" in
  intros [Hp Ht];
  destruct m as [s pend tms h]; cbn [pending timers ui history] in *;
  destruct i as [| | | |n a|n]; cbn [step ui pending timers history];
  [ unfold buttons_enabled;
    destruct (dialog_rendered s && negb (updating s)) eqn:En
  | unfold buttons_enabled;
    destruct (dialog_rendered s && negb (updating s)) eqn:En
  | destruct tauri
  | destruct tauri
  | destruct (take_nth n pend) as [[th rest]|] eqn:E;
    [ destruct (take_nth_split _ _ _ _ E) as [l1 [l2 [-> ->]]];
      apply Forall_app in Hp as [Hp1 Hp2];
      inversion Hp2 as [|? ? Hth Hp2']; subst;
      inversion Hth; subst;
      destruct a as [[?|?]|[info|?]|[?|?]|[[[|] ? ?]|?]];
      cbn [answer_for awaits origin kont]
    | ]
  | destruct (take_nth n tms) as [[cb rest]|] eqn:E;
    [ destruct (take_nth_split _ _ _ _ E) as [l1 [l2 [-> ->]]];
      apply Forall_app in Ht as [Ht1 Ht2];
      inversion Ht2 as [|? ? Hcb Ht2']; subst
    | ]
  ].

Lemma well_formed_step tauri m i :
  well_formed tauri m -> well_formed tauri (step tauri m i).
Proof.
  step_cases tauri m i; simpl;
    try (destruct (update_available info); simpl);
    try (destruct tauri; simpl);
    (split;
     [ repeat (apply Forall_app; split); auto;
       repeat constructor
     | repeat (apply Forall_app; split); auto; repeat constructor ]).
Qed.

Lemma well_formed_steps tauri inputs m :
  well_formed tauri m -> well_formed tauri (steps tauri m inputs).
Proof.
  revert m. induction inputs as [|i inputs IH]; intros m H; simpl; auto.
  apply IH. now apply well_formed_step.
Qed.

Lemma well_formed_start tauri s : well_formed tauri (start s).
Proof. split; constructor. Qed.

(** Closes a goal [exists new, history' = history ++ new /\ P new] once
    the new history is computed. *)
Ltac history_grows :=
  first
    [ exists []; split; [now rewrite app_nil_r | try reflexivity; simpl; lia]
    | eexists; split;
      [ rewrite <- ?app_assoc; reflexivity | try reflexivity; simpl; lia ] ].

Lemma step_applies_after_backup tauri m i :
  well_formed tauri m ->
  exists new,
    history (step tauri m i) = history m ++ new
    /\ invocations update_openclaw new = backups_done new.
Proof.
  step_cases tauri m i; simpl;
    try (destruct (update_available info); simpl);
    try (destruct tauri; simpl);
    history_grows.
Qed.

(** X19: however clicks, backend answers and timers interleave, the
    component has called [update_openclaw] exactly as often as a call of
    [backup_user_config] has resolved: no update without a backup that
    went through, and no backup that went through without its update. *)
Theorem X19_updates_match_completed_backups
    (tauri : bool) (s : AppState) (inputs : list input) :
  let m := steps tauri (start s) inputs in
  invocations update_openclaw (history m) = backups_done (history m).
Proof.
  cbv zeta.
  assert (G : forall m, well_formed tauri m ->
            invocations update_openclaw (history m) = backups_done (history m) ->
            invocations update_openclaw (history (steps tauri m inputs))
            = backups_done (history (steps tauri m inputs))).
  { induction inputs as [|i inputs IH]; intros m Hw Hm; simpl; [exact Hm|].
    apply IH; [now apply well_formed_step|].
    destruct (step_applies_after_backup tauri m i Hw) as [new [-> Hn]].
    rewrite invocations_app, backups_done_app. lia. }
  apply G; [apply well_formed_start | reflexivity].
Qed.

Lemma step_backup_needs_click tauri m i :
  well_formed tauri m ->
  exists new,
    history (step tauri m i) = history m ++ new
    /\ (invocations backup_user_config new <= update_clicks [i])%nat.
Proof.
  step_cases tauri m i; simpl;
    try (destruct (update_available info); simpl);
    try (destruct tauri; simpl);
    history_grows.
Qed.

(** X20: the component never starts a backup on its own: however events
    interleave, [backup_user_config] has been called at most as often as
    the update button was clicked. *)
Theorem X20_backups_need_clicks
    (tauri : bool) (s : AppState) (inputs : list input) :
  let m := steps tauri (start s) inputs in
  (invocations backup_user_config (history m) <= update_clicks inputs)%nat.
Proof.
  cbv zeta.
  assert (G : forall m k, well_formed tauri m ->
            (invocations backup_user_config (history m) <= k)%nat ->
            (invocations backup_user_config (history (steps tauri m inputs))
             <= k + update_clicks inputs)%nat).
  { induction inputs as [|i inputs IH]; intros m k Hw Hm; simpl steps;
      [simpl; lia|].
    replace (k + update_clicks (i :: inputs))%nat
      with ((k + update_clicks [i]) + update_clicks inputs)%nat
      by (destruct i; simpl; lia).
    apply IH; [now apply well_formed_step|].
    destruct (step_backup_needs_click tauri m i Hw) as [new [-> Hn]].
    rewrite invocations_app. lia. }
  apply (G (start s) 0%nat); [apply well_formed_start | simpl; lia].
Qed.




(** X22: the "updating" flag tells the truth: in every state the
    component can reach it is set exactly while a call of an update
    attempt is suspended at the backend, and while it is set the button
    "暂不更新" does nothing, so the dialog cannot be dismissed in the middle
    of an attempt. *)
Theorem X22_updating_means_in_flight
    (tauri : bool) (s : AppState) (inputs : list input) :
  updating s = false ->
  let m := steps tauri (start s) inputs in
  (updating (ui m) = true <-> (0 < attempts_in_flight m)%nat)
  /\ (updating (ui m) = true -> step tauri m ClickLater = m).
Proof.
  intros Hs m.
  destruct (consistent_steps tauri inputs (start s) (consistent_start s Hs))
    as [_ [_ Hc]].
  fold m in Hc. split.
  - rewrite Hc. destruct (updating (ui m)); split; intro; try lia; congruence.
  - intro Hu. simpl. unfold buttons_enabled. rewrite Hu.
    now rewrite andb_false_r.
Qed.

Lemma X22_witness :
  step true (steps true (start initial) clicked_once) ClickLater
  = steps true (start initial) clicked_once.
Proof.
  apply (proj2 (X22_updating_means_in_flight true initial clicked_once eq_refl)).
  reflexivity.
Defined.

(** X16: the outcome of an attempt is shown the moment it is known,
    whatever else is pending or has happened before.  In every state the
    component can reach, when the backend rejects the suspended
    [backup_user_config] or [update_openclaw] with [e], the state right
    after that answer holds the error result with the text of [e] and
    [updating] is reset; when it resolves [update_openclaw], the state
    right after holds the backend's result, and [updating] is reset in the
    same turn if the result is no success. *)
Theorem X16_outcome_is_shown_at_once
    (tauri : bool) (s : AppState) (inputs : list input)
    (n : nat) (th : thread) (rest : list thread) :
  let m := steps tauri (start s) inputs in
  take_nth n (pending m) = Some (th, rest) ->
  (awaits th = backup_user_config -> forall e,
     let m' := step tauri m (Settle n (AnswerBackup (Rejected e))) in
     updateResult (ui m') = Some (error_result e)
     /\ updating (ui m') = false)
  /\ (awaits th = update_openclaw -> forall e,
       let m' := step tauri m (Settle n (AnswerUpdate (Rejected e))) in
       updateResult (ui m') = Some (error_result e)
       /\ updating (ui m') = false)
  /\ (awaits th = update_openclaw -> forall result,
       let m' := step tauri m (Settle n (AnswerUpdate (Resolved result))) in
       updateResult (ui m') = Some result
       /\ (success result = false -> updating (ui m') = false)).
Proof.
  intros m E.
  destruct (well_formed_steps tauri inputs (start s) (well_formed_start tauri s))
    as [Hp _].
  fold m in Hp.
  destruct (take_nth_split _ _ _ _ E) as [l1 [l2 [Hl Hr]]].
  rewrite Hl in Hp. apply Forall_app in Hp as [_ Hp].
  inversion Hp as [|? ? Hth _]; subst.
  split; [|split]; intros Ha;
    destruct Hth; simpl in Ha; try discriminate Ha;
    intros x; cbv zeta; cbn [step]; rewrite E; cbn [answer_for awaits origin kont].
  - split; reflexivity.
  - split; reflexivity.
  - destruct x as [[|] msg er]; destruct tauri; simpl;
      split; try reflexivity; intro H; try reflexivity; discriminate H.
Qed.

(** The backup of the one attempt under way is refused with an [Error]. *)
Lemma X16_witness :
  let m := steps true (start initial) clicked_once in
  let m' := step true m
              (Settle 0 (AnswerBackup (Rejected (ThrownError "Error" "disk full")))) in
  updateResult (ui m')
  = Some {| success := false;
            message := "更新过程中发生错误";
            error := Some "Error: disk full" |}
  /\ updating (ui m') = false.
Proof.
  apply (proj1 (X16_outcome_is_shown_at_once true initial clicked_once 0
                  {| origin := HandleUpdate; awaits := backup_user_config;
                     kont := after_backup true |} [] eq_refl) eq_refl).
Defined.

(** X23: nothing cancels or guards the close timer that a successful
    update sets: whenever one of these timers fires, also in the middle of
    a later attempt, the dialog closes and the shown result is cleared,
    while "updating", the stored update info and the environment status
    stay as they are. *)
Theorem X23_close_timer_is_unconditional
    (tauri : bool) (s : AppState) (inputs : list input) (n : nat) :
  let m := steps tauri (start s) inputs in
  (n < List.length (timers m))%nat ->
  let m' := step tauri m (Fire n) in
  banner_rendered (ui m') = false
  /\ updateResult (ui m') = None
  /\ updating (ui m') = updating (ui m)
  /\ updateInfo (ui m') = updateInfo (ui m)
  /\ envStatus (ui m') = envStatus (ui m)
  /\ S (List.length (timers m')) = List.length (timers m)
  /\ pending m' = pending m.
Proof.
  intros m Hn.
  destruct (well_formed_steps tauri inputs (start s) (well_formed_start tauri s))
    as [_ Ht].
  fold m in Ht. cbv zeta. cbn [step].
  destruct (take_nth n (timers m)) as [[cb rest]|] eqn:E.
  - destruct (take_nth_split _ _ _ _ E) as [l1 [l2 [Hl ->]]].
    rewrite Hl in Ht. apply Forall_app in Ht as [_ Ht].
    inversion Ht as [|? ? Hcb _]; subst cb.
    repeat split; try reflexivity.
    cbn [timers]. rewrite Hl, !length_app. simpl. lia.
  - exfalso. clear Ht. revert n Hn E.
    induction (timers m) as [|x l IH]; intros [|n] Hn E; simpl in *;
      try lia; try discriminate.
    destruct (take_nth n l) as [[y r]|] eqn:E'; [discriminate|].
    apply (IH n); [lia | exact E'].
Qed.

(** A successful attempt in full: the check announces an update, the
    user clicks, and the backend resolves the three calls. *)
Lemma X23_witness :
  let m := steps true (start initial)
             (clicked_once
              ++ [ Settle 0 (AnswerBackup (backend_ok backup_user_config));
                   Settle 0 (AnswerUpdate (backend_ok update_openclaw));
                   Settle 0 (AnswerEnv (backend_ok check_environment)) ]) in
  let m' := step true m (Fire 0) in
  banner_rendered (ui m') = false
  /\ updateResult (ui m') = None
  /\ updating (ui m') = updating (ui m)
  /\ updateInfo (ui m') = updateInfo (ui m)
  /\ envStatus (ui m') = envStatus (ui m)
  /\ S (List.length (timers m')) = List.length (timers m)
  /\ pending m' = pending m.
Proof.
  apply (X23_close_timer_is_unconditional true initial
           (clicked_once
            ++ [ Settle 0 (AnswerBackup (backend_ok backup_user_config));
                 Settle 0 (AnswerUpdate (backend_ok update_openclaw));
                 Settle 0 (AnswerEnv (backend_ok check_environment)) ]) 0).
  vm_compute. lia.
Defined.

Lemma step_keeps_ready tauri m i :
  well_formed tauri m ->
  (isReady (ui m) = Some true -> isReady (ui (step tauri m i)) = Some true)
  /\ (envStatus (ui m) <> None -> envStatus (ui (step tauri m i)) <> None).
Proof.
  step_cases tauri m i; simpl;
    try (destruct (update_available info); simpl);
    try (destruct tauri; simpl);
    (split; [intro H; first [exact H | reflexivity]
            | intro H; first [exact H | discriminate]]).
Qed.

(** X24: the component never goes back to its loading screen, and never
    forgets the environment: once [isReady] is true it stays true, and
    once an environment status is stored one stays stored, through every
    click, backend answer, failed check and timer. *)
Theorem X24_ready_is_for_good
    (tauri : bool) (s : AppState) (inputs : list input) :
  let m := steps tauri (start s) inputs in
  (isReady s = Some true -> isReady (ui m) = Some true)
  /\ (envStatus s <> None -> envStatus (ui m) <> None).
Proof.
  cbv zeta.
  assert (G : forall m, well_formed tauri m ->
            (isReady (ui m) = Some true ->
             isReady (ui (steps tauri m inputs)) = Some true)
            /\ (envStatus (ui m) <> None ->
                envStatus (ui (steps tauri m inputs)) <> None)).
  { induction inputs as [|i inputs IH]; intros m Hw; simpl steps; [now split|].
    destruct (step_keeps_ready tauri m i Hw) as [A B].
    destruct (IH (step tauri m i) (well_formed_step tauri m i Hw)) as [A' B'].
    split; auto. }
  apply (G (start s)), well_formed_start.
Qed.

Lemma X24_witness :
  isReady (ui (steps true (start (setIsReady (Some true) initial))
                 (clicked_once ++ [Settle 0 (AnswerBackup (Rejected (ThrownString "denied")))])))
  = Some true.
Proof.
  apply (proj1 (X24_ready_is_for_good true (setIsReady (Some true) initial)
                  (clicked_once
                   ++ [Settle 0 (AnswerBackup (Rejected (ThrownString "denied")))]))).
  reflexivity.
Defined.

End MachineMore.

(* ================================================================== *)
(** * The models at work *)
(* ================================================================== *)

Example parseInt10_number : JS.parseInt10 "22" = JS.Num 22.
Proof. reflexivity. Qed.

Example parseInt10_ignores_tail : JS.parseInt10 " 22abc" = JS.Num 22.
Proof. reflexivity. Qed.

Example parseInt10_no_digit : JS.parseInt10 "abc" = JS.NaN.
Proof. reflexivity. Qed.

Example gate_on_node_versions :
  Lnode.satisfies "v18.2.0" 22 = false
  /\ Lnode.satisfies "v22.0.0" 22 = true
  /\ Lnode.satisfies "v23.1.4" 22 = true.
Proof. repeat split; reflexivity. Qed.

(** The scenario of the specification: "18.2.0" against 22 is not
    satisfied (the gate reads major version 8), and the chain starts. *)
Example scenario_18_2_0 :
  Lnode.satisfies "18.2.0" 22 = false
  /\ Lnode.majorVersion "18.2.0" = JS.Num 8.
Proof. split; reflexivity. Qed.

Example String_of_thrown_values :
  App.String_of (App.ThrownString "permission denied") = "permission denied"
  /\ App.String_of (App.ThrownError "Error" "disk full") = "Error: disk full"
  /\ App.String_of (App.ThrownError "Error" EmptyString) = "Error"
  /\ App.String_of (App.ThrownError EmptyString "disk full") = "disk full"
  /\ App.String_of (App.ThrownValue "[object Object]") = "[object Object]".
Proof. repeat split; reflexivity. Qed.

Example path_join_of_directories :
  Lnode.path_join "darwin" "/opt/tool" "node.pkg" = "/opt/tool/node.pkg"
  /\ Lnode.path_join "darwin" "/" "node.pkg" = "/node.pkg"
  /\ Lnode.path_join "win32" "C:\tool" "node.msi" = "C:\tool\node.msi"
  /\ Lnode.path_join "win32" "C:\" "node.msi" = "C:\node.msi".
Proof. repeat split; reflexivity. Qed.

Example bootstrap_with_local_installer :
  Lnode.commands (Lnode.trace_of Lnode.main host_msi)
  = [ Lnode.msiexec "C:\tool\node-v22.1.0-x64.msi";
      "npm config get registry";
      "npm config set registry https://registry.npmmirror.com";
      "python --version" ].
Proof. reflexivity. Qed.

Example bootstrap_local_installer_fails :
  Lnode.commands (Lnode.trace_of Lnode.main host_pkg_fails)
  = [ Lnode.sudo_installer "/opt/tool/node-v22.1.0.pkg";
      "brew install node";
      "npm config get registry" ].
Proof. reflexivity. Qed.

Example stops_at_success_rejects :
  stops_at_success
    [ Lnode.Exec (Lnode.msiexec "C:\tool\node.msi"); Lnode.Exec Lnode.winget ]
  = false.
Proof. reflexivity. Qed.

Example update_attempt_history :
  App.history (App.run backend_ok (App.handleUpdate true) (App.start App.initial))
  = [ App.Logged App.linfo "开始备份配置...";
      App.Invoke App.backup_user_config;
      App.Settled App.backup_user_config true;
      App.Logged App.linfo "配置备份成功";
      App.Logged App.linfo "开始执行更新...";
      App.Invoke App.update_openclaw;
      App.Settled App.update_openclaw true;
      App.Logged App.linfo "开始检查系统环境...";
      App.Invoke App.check_environment;
      App.Settled App.check_environment true;
      App.Logged App.linfo "环境检查完成";
      App.TimerSet 3000 ].
Proof. reflexivity. Qed.

(** While the loading screen is up there is no dialog to click on. *)
Example click_on_loading_screen_starts_nothing :
  App.history
    (App.steps true (App.start App.initial)
       [ App.StartCheckUpdate;
         App.Settle 0 (App.AnswerInfo (backend_ok App.check_openclaw_update));
         App.ClickUpdate ])
  = [ App.Logged App.linfo "检查 OpenClaw 更新...";
      App.Invoke App.check_openclaw_update;
      App.Settled App.check_openclaw_update true;
      App.Logged App.linfo "更新检查结果" ].
Proof. reflexivity. Qed.

(** The close timer of a successful update is still pending when a second
    attempt fails: once it fires, the failure is no longer shown. *)
Example stale_timer_clears_a_later_failure :
  let m :=
    App.steps true (App.start App.initial)
      (clicked_once
       ++ [ App.Settle 0 (App.AnswerBackup (backend_ok App.backup_user_config));
            App.Settle 0 (App.AnswerUpdate (backend_ok App.update_openclaw));
            App.Settle 0 (App.AnswerEnv (backend_ok App.check_environment));
            App.ClickUpdate;
            App.Settle 0 (App.AnswerBackup
                            (App.Rejected (App.ThrownString "permission denied"))) ])%list in
  App.updateResult (App.ui m) = Some (error_result (App.ThrownString "permission denied"))
  /\ App.updateResult (App.ui (App.step true m (App.Fire 0))) = None
  /\ App.dialog_rendered (App.ui (App.step true m (App.Fire 0))) = false.
Proof. repeat split; reflexivity. Qed.

Example second_click_starts_nothing :
  App.invocations App.backup_user_config
    (App.history
       (App.steps true (App.start App.initial)
          (clicked_once ++ [App.ClickUpdate; App.ClickUpdate])%list))
  = 1%nat.
Proof. reflexivity. Qed.
